(** * terminedia: styled-text rendering engine

    A shallow embedding of the text engine of terminedia
    ([terminedia/text/planes.py], [terminedia/text/style.py] and the
    [Context] of [terminedia/contexts.py]) and the properties its
    specification states about it.

    Python objects that are mutated through several references (the
    dictionaries and sets of a [MarkMap], the plane a [MarkMap] is attached
    to) live in an explicit store addressed by location; everything that is
    only ever replaced as a whole is a plain value.  Code that can raise
    returns a [result]; code that mutates and can raise returns the outcome
    together with the store as the raise left it. *)

From stdpp Require Import base option list strings gmap.
From Stdlib Require Import ZArith Lia Ascii.

Local Open Scope Z_scope.

(** ** Exceptions and results *)

Inductive exn :=
| IndexError | KeyError | RuntimeError | AttributeError | ValueError
| TypeError | NameError | ZeroDivisionError | RecursionError.

Inductive result (A : Type) :=
| Ok (a : A)
| Raise (e : exn).
Arguments Ok {A} a.
Arguments Raise {A} e.

Definition rbind {A B} (r : result A) (k : A -> result B) : result B :=
  match r with Ok a => k a | Raise e => Raise e end.

Definition is_ok {A} (r : result A) : bool :=
  match r with Ok _ => true | Raise _ => false end.

(** A computation over a mutable store [S]: the store is returned in both
    outcomes, a raise keeps every mutation made before it. *)
Definition M (S A : Type) : Type := S -> result A * S.

Definition mret {S A} (a : A) : M S A := fun s => (Ok a, s).
Definition mraise {S A} (e : exn) : M S A := fun s => (Raise e, s).
Definition mbind {S A B} (c : M S A) (k : A -> M S B) : M S B :=
  fun s => match c s with
           | (Ok a, s') => k a s'
           | (Raise e, s') => (Raise e, s')
           end.
Definition mget {S} : M S S := fun s => (Ok s, s).
Definition mput {S} (s : S) : M S unit := fun _ => (Ok tt, s).
Definition mlift {S A} (r : result A) : M S A := fun s => (r, s).

Declare Scope py_scope.
Delimit Scope py_scope with py.
Notation "'let*' x := c 'in' k" := (mbind c (fun x => k))
  (at level 10, x pattern, c at level 100, k at level 200) : py_scope.
Notation "c ;; k" := (mbind c (fun _ => k))
  (at level 100, k at level 200, right associativity) : py_scope.

(** [for x in l: body x] *)
Fixpoint mfor {S A} (l : list A) (body : A -> M S unit) : M S unit :=
  match l with
  | [] => mret tt
  | x :: r => mbind (body x) (fun _ => mfor r body)
  end.

(** ** Insertion-ordered dictionaries

    A Python [dict] iterates in insertion order and the order is visible
    (iteration of a [MarkMap], the order in which edge-relative marks are
    merged), so dictionaries whose order is observed are association lists
    with unique keys. *)

Section ODict.
Context {K V : Type} `{EqDecision K}.

Definition odict := list (K * V).

Fixpoint od_get (d : list (K * V)) (k : K) : option V :=
  match d with
  | [] => None
  | (k', v) :: r => if decide (k = k') then Some v else od_get r k
  end.

(** [d[k] = v]: an existing key keeps its place, a new one goes last. *)
Fixpoint od_set (d : list (K * V)) (k : K) (v : V) : list (K * V) :=
  match d with
  | [] => [(k, v)]
  | (k', v') :: r =>
      if decide (k = k') then (k', v) :: r else (k', v') :: od_set r k v
  end.

(** [d.pop(k, default)], the dictionary part. *)
Fixpoint od_del (d : list (K * V)) (k : K) : list (K * V) :=
  match d with
  | [] => []
  | (k', v') :: r =>
      if decide (k = k') then r else (k', v') :: od_del r k
  end.

Definition od_keys (d : list (K * V)) : list K := d.*1.

Definition od_mem (d : list (K * V)) (k : K) : bool :=
  match od_get d k with Some _ => true | None => false end.
End ODict.

(** ** The character grid of a text plane ([planes.py]) *)

Module CharPlaneData.
Section Grid.
(** [terminedia.values.EMPTY], the grapheme of a cell never written. *)
Variable EMPTY : string.

(** [class CharPlaneData(dict)]: the inherited dictionary and the two
    slots the bounds checks read. *)
Record t := mk {
  width : Z;
  height : Z;
  cells : gmap (Z * Z) string
}.

Definition out_of_range (d : t) (pos : Z * Z) : bool :=
  negb ((0 <=? pos.1) && (pos.1 <? width d))
  || negb ((0 <=? pos.2) && (pos.2 <? height d)).

Definition __getitem__ (d : t) (pos : Z * Z) : result string :=
  if out_of_range d pos then Raise IndexError
  else Ok (default EMPTY (cells d !! pos)).

Definition __setitem__ (d : t) (pos : Z * Z) (value : string) : result t :=
  if out_of_range d pos then Raise IndexError
  else Ok (mk (width d) (height d) (<[pos := value]> (cells d))).

(** [dict.__delitem__], inherited unchanged: no bounds check. *)
Definition __delitem__ (d : t) (pos : Z * Z) : result t :=
  match cells d !! pos with
  | Some _ => Ok (mk (width d) (height d) (delete pos (cells d)))
  | None => Raise KeyError
  end.

(** [dict.clear] *)
Definition clear (d : t) : t := mk (width d) (height d) ∅.
End Grid.
End CharPlaneData.

(** ** Marks and the values they carry ([style.py], [contexts.py]) *)

(** The reserved values [terminedia.values.DEFAULT_FG], [DEFAULT_BG] and
    [TRANSPARENT]. *)
Inductive special_value := DEFAULT_FG | DEFAULT_BG | TRANSPARENT.

(** A transformer as the markup engine sees it: a name and the optional
    [sequence_len] attribute read by [getattr(value, "sequence_len", spam)]. *)
Record Transformer := mkTransformer {
  tr_name : string;
  tr_sequence_len : option Z
}.

(** A transformer inside a container is a reference: one supplied by the
    parent context, or a copy made by [StyledSequence._context_push], which
    lives in the sequence's own store. *)
Inductive tref := TExternal (name : string) | TLocal (loc : nat).
#[global] Instance tref_eq_dec : EqDecision tref.
Proof. solve_decision. Defined.

Inductive pyval :=
| VNone
| VStr (s : string)
| VInt (n : Z)
| VColor (c : string)            (* Color(name) *)
| VSpecial (c : special_value)
| VV2 (p : Z * Z)                (* a Directions member, a position *)
| VTransformer (t : Transformer)
| VContainer (l : list tref)     (* a TransformersContainer *)
| VRef (n : nat).                (* any other object, by identity *)

(** One axis of [Mark.moveto]: a coordinate or the [RETAIN_POS] sentinel. *)
Inductive mcoord := RETAIN_POS | MAt (n : Z).

(** What [SpecialMark.index(tick, length)] returns: an index in the text or
    a position on the plane. *)
Inductive sindex := SIdx (n : Z) | SPos (p : Z * Z).

(** [class Mark] and its subclass [SpecialMark], which adds [index].  The
    transient slots [context] and [pos] are written by [_process_to] and
    read nowhere in the engine; they are left out. *)
Record Mark := mkMark {
  attributes : option (list (string * pyval));
  pop_attributes : option (list string);
  moveto : option (mcoord * mcoord);
  rmoveto : option (Z * Z);
  index : option (Z -> Z -> result sindex)
}.

(** A slot of a mark dictionary holds a Mark or a list of Marks. *)
Inductive cell := One (m : Mark) | Many (l : list Mark).

(** Modelled from the spec: [terminedia.values.RelativeMarkIndex], an axis
    value counted from the far edge ("N from the far edge"): the name of the
    edge and an offset, compared by both, with [evaluate(size)] adding the
    offset to the named dimension.  [WIDTH_INDEX] and [HEIGHT_INDEX] are the
    two edges with offset 0. *)
Inductive edge := WIDTH | HEIGHT.

(** One component of an index into a [MarkMap]. *)
Inductive comp := CInt (n : Z) | CNone | CRel (name : edge) (off : Z).

Definition mkey : Type := comp * comp.

#[global] Instance edge_eq_dec : EqDecision edge.
Proof. solve_decision. Defined.
#[global] Instance comp_eq_dec : EqDecision comp.
Proof. solve_decision. Defined.
#[global] Instance sindex_eq_dec : EqDecision sindex.
Proof. solve_decision. Defined.

Definition WIDTH_INDEX : comp := CRel WIDTH 0.
Definition HEIGHT_INDEX : comp := CRel HEIGHT 0.

Definition evaluate (name : edge) (off : Z) (size : Z * Z) : Z :=
  match name with WIDTH => size.1 + off | HEIGHT => size.2 + off end.

(** The mark dictionary of a [StyledSequence]: marks by text offset and the
    optional entry under the key ["special"].  An object of a Python set is
    known by its identity, so a mark in a set of specials comes with it. *)
Record SeqData := mkSeqData {
  seq_marks : list (Z * cell);
  seq_special : option (list (nat * Mark))
}.

Inductive origin := Original | Plane | Sequence.
#[global] Instance origin_eq_dec : EqDecision origin.
Proof. solve_decision. Defined.

(** ** Helper functions used by [MarkMap] *)

Definition _force_iter (item : cell) : list Mark :=
  match item with One m => [m] | Many l => l end.

(** [_merge_as_lists]: [None] arguments are skipped, lists are
    spliced, a result of length one is unwrapped. *)
Definition _merge_as_lists (args : list (option cell)) : cell :=
  let result :=
    fold_left (fun acc item =>
                 match item with
                 | None => acc
                 | Some (One m) => acc ++ [m]
                 | Some (Many l) => acc ++ l
                 end) args [] in
  match result with
  | [m] => One m
  | _ => Many result
  end.

(** Truth value of a slot: a Mark is true, a list is true when not empty. *)
Definition cell_truthy (c : cell) : bool :=
  match c with One _ => true | Many [] => false | Many _ => true end.

Definition comp_is_none (c : comp) : bool :=
  match c with CNone => true | _ => false end.
Definition comp_is_rel (c : comp) : bool :=
  match c with CRel _ _ => true | _ => false end.
(** [c < 0], reached for integers only. *)
Definition comp_lt0 (c : comp) : bool :=
  match c with CInt n => n <? 0 | _ => false end.

Definition index_is_relative (index : mkey) : bool :=
  comp_is_none index.1 || comp_is_none index.2
  || comp_is_rel index.1 || comp_lt0 index.1
  || comp_is_rel index.2 || comp_lt0 index.2.

(** [RelativeMarkIndex(name) + comp]; adding [None] keeps the offset. *)
Definition _normalize_component (c : comp) (name : edge) : bool * comp :=
  match c with
  | CRel _ _ => (true, c)
  | CNone => (true, CRel name 0)
  | CInt n => if n <? 0 then (true, CRel name n) else (false, CInt n)
  end.

Definition normalize_relative_index (index : mkey) : bool * mkey :=
  let '(r1, x) := _normalize_component index.1 WIDTH in
  let '(r2, y) := _normalize_component index.2 HEIGHT in
  (r1 || r2, (x, y)).

(** The first half of [get_relative_variants]: the position as two
    integers.  Both axes replace [None] by [WIDTH_INDEX], as the source
    does. *)
Definition concrete_x (c : comp) (size : Z * Z) : Z :=
  match (match c with CNone => WIDTH_INDEX | _ => c end) with
  | CRel name off => evaluate name off size
  | CInt n => if n <? 0 then size.1 + n else n
  | CNone => 0
  end.

Definition concrete_y (c : comp) (size : Z * Z) : Z :=
  match (match c with CNone => WIDTH_INDEX | _ => c end) with
  | CRel name off => evaluate name off size
  | CInt n => if n <? 0 then size.2 + n else n
  | CNone => 0
  end.

Definition concrete_pos (pos : mkey) (size : Z * Z) : Z * Z :=
  (concrete_x pos.1 size, concrete_y pos.2 size).

(** [WIDTH_INDEX - (size[0] - pos[0])] and its vertical twin. *)
Definition far_x (p : Z * Z) (size : Z * Z) : comp := CRel WIDTH (0 - (size.1 - p.1)).
Definition far_y (p : Z * Z) (size : Z * Z) : comp := CRel HEIGHT (0 - (size.2 - p.2)).

Definition get_relative_variants (pos : mkey) (size : Z * Z) : list mkey :=
  let p := concrete_pos pos size in
  let px := far_x p size in
  let py := far_y p size in
  [ (CInt p.1, CInt p.2); (px, CInt p.2); (CInt p.1, py); (px, py) ].

(** ** The store of a [MarkMap] *)

(** [class MarkMap]: its dictionaries and its set are objects of their own,
    reached through references, so that a shallow [copy] shares them. *)
Record MarkMapObj := mkMarkMap {
  data : nat;
  relative_data : nat;
  tick : Z;
  seq_data : SeqData;
  special : nat;
  _concrete_special : nat;
  text_plane : option nat;
  is_rendering_copy : bool;
  parsed_text : option (list string);
  context : option nat
}.

Inductive hobj :=
| HDict (d : list (mkey * cell))              (* data, relative_data *)
| HSet (s : list (nat * Mark))                (* special *)
| HConcrete (d : list (sindex * list Mark))   (* _concrete_special *)
| HText (size : Z * Z)                        (* the Text a map is attached to *)
| HMarkMap (m : MarkMapObj)
| HNew.                                       (* an instance before __init__ *)

Abbreviation heap := (list hobj).

Definition alloc (o : hobj) : M heap nat :=
  fun h => (Ok (length h), h ++ [o]).

Definition load (l : nat) : M heap hobj :=
  fun h => match h !! l with
           | Some o => (Ok o, h)
           | None => (Raise AttributeError, h)
           end.

Definition store (l : nat) (o : hobj) : M heap unit :=
  fun h => (Ok tt, <[l := o]> h).

Definition load_dict (l : nat) : M heap (list (mkey * cell)) :=
  (let* o := load l in
   match o with HDict d => mret d | _ => mraise TypeError end)%py.

Definition load_set (l : nat) : M heap (list (nat * Mark)) :=
  (let* o := load l in
   match o with HSet s => mret s | _ => mraise TypeError end)%py.

Definition load_concrete (l : nat) : M heap (list (sindex * list Mark)) :=
  (let* o := load l in
   match o with HConcrete d => mret d | _ => mraise TypeError end)%py.

Definition load_markmap (l : nat) : M heap MarkMapObj :=
  (let* o := load l in
   match o with HMarkMap m => mret m | _ => mraise TypeError end)%py.

(** [self.text_plane.size]; a map without a plane has [None] there. *)
Definition plane_size (tp : option nat) : M heap (Z * Z) :=
  match tp with
  | None => mraise AttributeError
  | Some l =>
      (let* o := load l in
       match o with HText size => mret size | _ => mraise AttributeError end)%py
  end.

(** [set.add]: an object already in the set is not added again. *)
Definition set_add (s : list (nat * Mark)) (x : nat * Mark) : list (nat * Mark) :=
  if decide (x.1 ∈ s.*1) then s else s ++ [x].

Definition set_update (s : list (nat * Mark)) (xs : list (nat * Mark)) : list (nat * Mark) :=
  fold_left set_add xs s.

(** ** [class MarkMap] *)

Module MarkMap.

Local Open Scope py_scope.

Definition set_tick (v : Z) (m : MarkMapObj) : MarkMapObj :=
  mkMarkMap (data m) (relative_data m) v (seq_data m) (special m)
    (_concrete_special m) (text_plane m) (is_rendering_copy m)
    (parsed_text m) (context m).
Definition set_seq_data (v : SeqData) (m : MarkMapObj) : MarkMapObj :=
  mkMarkMap (data m) (relative_data m) (tick m) v (special m)
    (_concrete_special m) (text_plane m) (is_rendering_copy m)
    (parsed_text m) (context m).
Definition set_context (v : option nat) (m : MarkMapObj) : MarkMapObj :=
  mkMarkMap (data m) (relative_data m) (tick m) (seq_data m) (special m)
    (_concrete_special m) (text_plane m) (is_rendering_copy m)
    (parsed_text m) v.
Definition set_parsed_text (v : option (list string)) (m : MarkMapObj) : MarkMapObj :=
  mkMarkMap (data m) (relative_data m) (tick m) (seq_data m) (special m)
    (_concrete_special m) (text_plane m) (is_rendering_copy m)
    v (context m).
Definition set_special (v : nat) (m : MarkMapObj) : MarkMapObj :=
  mkMarkMap (data m) (relative_data m) (tick m) (seq_data m) v
    (_concrete_special m) (text_plane m) (is_rendering_copy m)
    (parsed_text m) (context m).
Definition set_data (v : nat) (m : MarkMapObj) : MarkMapObj :=
  mkMarkMap v (relative_data m) (tick m) (seq_data m) (special m)
    (_concrete_special m) (text_plane m) (is_rendering_copy m)
    (parsed_text m) (context m).
Definition set_concrete_special (v : nat) (m : MarkMapObj) : MarkMapObj :=
  mkMarkMap (data m) (relative_data m) (tick m) (seq_data m) (special m)
    v (text_plane m) (is_rendering_copy m) (parsed_text m) (context m).
Definition set_is_rendering_copy (v : bool) (m : MarkMapObj) : MarkMapObj :=
  mkMarkMap (data m) (relative_data m) (tick m) (seq_data m) (special m)
    (_concrete_special m) (text_plane m) v (parsed_text m) (context m).

(** [instance.attr = v] *)
Definition setattr (l : nat) (f : MarkMapObj -> MarkMapObj) : M heap unit :=
  let* m := load_markmap l in store l (HMarkMap (f m)).

(** [__init__(self, parent=None)]: every dictionary is a new object.
    Attributes that [__init__] does not assign ([parsed_text], [context])
    stay as they were when an existing map is initialised again. *)
Definition __init__ (self : nat) (parent : option nat) : M heap unit :=
  let* old := load self in
  let* d := alloc (HDict []) in
  let* rd := alloc (HDict []) in
  let* sp := alloc (HSet []) in
  let* cs := alloc (HConcrete []) in
  let '(pt, cx) :=
    match old with
    | HMarkMap m => (parsed_text m, context m)
    | _ => (None, None)
    end in
  store self (HMarkMap (mkMarkMap d rd 0 (mkSeqData [] None) sp cs parent
                          false pt cx)).

(** [MarkMap(parent=parent)] *)
Definition new (parent : option nat) : M heap nat :=
  let* self := alloc HNew in
  __init__ self parent ;;
  mret self.

Definition concretize_special_marks (self : nat) : M heap unit :=
  let* cs := alloc (HConcrete []) in
  setattr self (set_concrete_special cs) ;;
  let* m := load_markmap self in
  let* sp := load_set (special m) in
  mfor sp (fun x =>
    let mark := x.2 in
    match index mark, parsed_text m with
    | Some f, Some text =>
        let* idx := mlift (f (tick m) (Z.of_nat (length text))) in
        let* d := load_concrete cs in
        store cs (HConcrete (od_set d idx (default [] (od_get d idx) ++ [mark])))
    | _, _ => mraise AttributeError
    end).

Definition concretize_relative_marks (self : nat) : M heap unit :=
  let* m := load_markmap self in
  match text_plane m with
  | None => mret tt
  | Some _ =>
      let* size := plane_size (text_plane m) in
      let* rd := load_dict (relative_data m) in
      mfor rd (fun item =>
        let '(index, mark) := item in
        match get_relative_variants index size with
        | concrete_index :: _ =>
            let* d := load_dict (data m) in
            let new_mark := default (Many []) (od_get d concrete_index) in
            let new_mark := _merge_as_lists [Some new_mark; Some mark] in
            store (data m) (HDict (od_set d concrete_index new_mark))
        | [] => mraise ValueError
        end)
  end.

Definition prepare (self : nat) (seq_data : SeqData) (tick : Z)
    (parsed_text : list string) (context : option nat) : M heap nat :=
  let* m := load_markmap self in
  let* instance := alloc (HMarkMap m) in
  setattr instance (set_tick tick) ;;
  setattr instance (set_seq_data seq_data) ;;
  setattr instance (set_context context) ;;
  setattr instance (set_parsed_text (Some parsed_text)) ;;
  let* sp := load_set (special m) in
  let* sp' := alloc (HSet sp) in
  setattr instance (set_special sp') ;;
  let* d := load_dict (data m) in
  let* d' := alloc (HDict d) in
  setattr instance (set_data d') ;;
  match seq_special seq_data with
  | Some xs =>
      let* s := load_set sp' in
      store sp' (HSet (set_update s xs))
  | None => mret tt
  end ;;
  concretize_special_marks instance ;;
  concretize_relative_marks instance ;;
  setattr instance (set_is_rendering_copy true) ;;
  mret instance.

(** The index of [__setitem__]: the tag ["special"], a [Rect] (given by
    the cells [iter_cells] yields) or a position. *)
Inductive mindex :=
| ISpecial
| IRect (cells : list (Z * Z))
| IPos (k : mkey).

Definition setitem_pos (self : nat) (k : mkey) (value : cell) : M heap unit :=
  let '(is_relative, index) := normalize_relative_index k in
  let* m := load_markmap self in
  if is_relative then
    let* rd := load_dict (relative_data m) in
    store (relative_data m) (HDict (od_set rd index value))
  else
    let* d := load_dict (data m) in
    store (data m) (HDict (od_set d index value)).

(** [ident] is the identity of the object [value]; only a Mark can be a
    member of the set of specials (a list is not hashable). *)
Definition __setitem__ (self : nat) (index : mindex) (ident : nat)
    (value : cell) : M heap unit :=
  match index with
  | ISpecial =>
      match value with
      | One mk =>
          let* m := load_markmap self in
          let* s := load_set (special m) in
          store (special m) (HSet (set_add s (ident, mk)))
      | Many _ => mraise TypeError
      end
  | IRect cells =>
      mfor cells (fun pos => setitem_pos self (CInt pos.1, CInt pos.2) value)
  | IPos k => setitem_pos self k value
  end.

Definition __getitem__ (self : nat) (index : mkey) : M heap cell :=
  let* m := load_markmap self in
  let is_relative := index_is_relative index in
  let* index :=
    (if is_rendering_copy m && is_relative then
       let* size := plane_size (text_plane m) in
       match get_relative_variants index size with
       | i :: _ => mret i
       | [] => mraise ValueError
       end
     else mret index) in
  if is_rendering_copy m || (is_relative && negb (bool_decide (is_Some (text_plane m)))) then
    let* d := load_dict (data m) in
    match od_get d index with
    | Some c => mret c
    | None => mraise KeyError
    end
  else
    let* size := plane_size (text_plane m) in
    let* d := load_dict (data m) in
    let* rd := load_dict (relative_data m) in
    let all_marks :=
      concat (imap (fun i r_index =>
                      (if decide (i = 0%nat) then [od_get d r_index] else [])
                      ++ [od_get rd r_index])
                   (get_relative_variants index size)) in
    let result := _merge_as_lists all_marks in
    if cell_truthy result then mret result else mraise KeyError.

(** [MutableMapping.get]: a [KeyError] of [__getitem__] gives the
    default, anything else propagates. *)
Definition get (self : nat) (key : mkey) (dflt : cell) : M heap cell :=
  fun h => match __getitem__ self key h with
           | (Raise KeyError, h') => (Ok dflt, h')
           | r => r
           end.

(** [get_full] also records its two arguments on the map
    ([self.sequence_index], [self.pos]); nothing reads them back. *)
Definition get_full (self : nat) (sequence_index : Z) (pos : Z * Z)
    : M heap (list (Mark * origin)) :=
  let* m := load_markmap self in
  let* cs := load_concrete (_concrete_special m) in
  let mark_seq := (fun item => (item, Plane)) <$> default [] (od_get cs (SPos pos)) in
  let mark_seq := mark_seq ++
    ((fun item => (item, Sequence)) <$> default [] (od_get cs (SIdx sequence_index))) in
  let* here := get self (CInt pos.1, CInt pos.2) (Many []) in
  let mark_seq := mark_seq ++ ((fun item => (item, Plane)) <$> _force_iter here) in
  let mark_seq := mark_seq ++
    ((fun item => (item, Sequence)) <$>
       _force_iter (default (Many []) (od_get (seq_marks (seq_data m)) sequence_index))) in
  mret mark_seq.

Fixpoint del_variants (m : MarkMapObj) (i : nat) (vs : list mkey)
    (found : bool) : M heap bool :=
  match vs with
  | [] => mret found
  | r_index :: rest =>
      let* found :=
        (if decide (i = 0%nat) then
           let* d := load_dict (data m) in
           store (data m) (HDict (od_del d r_index)) ;;
           mret (found || from_option cell_truthy false (od_get d r_index))
         else mret found) in
      let* rd := load_dict (relative_data m) in
      store (relative_data m) (HDict (od_del rd r_index)) ;;
      del_variants m (S i) rest
        (found || from_option cell_truthy false (od_get rd r_index))
  end.

Definition __delitem__ (self : nat) (index : mkey) : M heap unit :=
  let* m := load_markmap self in
  let* size := plane_size (text_plane m) in
  let* found := del_variants m 0 (get_relative_variants index size) false in
  if found then mret tt else mraise KeyError.

Definition __len__ (self : nat) : M heap Z :=
  let* m := load_markmap self in
  let* d := load_dict (data m) in
  let* rd := load_dict (relative_data m) in
  mret (Z.of_nat (length d) + Z.of_nat (length rd)).

(** The keys an iteration yields, in order. *)
Definition __iter__ (self : nat) : M heap (list mkey) :=
  let* m := load_markmap self in
  let* d := load_dict (data m) in
  let* rd := load_dict (relative_data m) in
  match text_plane m with
  | Some _ =>
      match rd with
      | [] => mret (od_keys d)
      | _ => mret (od_keys d ++ od_keys rd)
      end
  | None => mret (od_keys d ++ od_keys rd)
  end.

Definition clear (self : nat) : M heap unit :=
  let* m := load_markmap self in
  __init__ self (text_plane m).

End MarkMap.

(** ** Python strings

    Text is a sequence of characters; the model has one [ascii] per
    character.  [str.strip], [str.split], [str.lower], [str.upper] and
    [int] are the built-ins restricted to that alphabet. *)

Notation "'let?' x := c 'in' k" := (rbind c (fun x => k))
  (at level 10, x pattern, c at level 100, k at level 200) : py_scope.

Definition chars := list ascii.

Definition ch (s : string) : ascii :=
  match s with String c _ => c | EmptyString => Ascii.zero end.

Definition is_space (c : ascii) : bool :=
  let n := nat_of_ascii c in
  ((9 <=? n) && (n <=? 13) || (28 <=? n) && (n <=? 32))%nat.

Definition ascii_eqb (a b : ascii) : bool := bool_decide (a = b).

Fixpoint lstrip (p : ascii -> bool) (s : chars) : chars :=
  match s with
  | c :: r => if p c then lstrip p r else s
  | [] => []
  end.

Definition rstrip (p : ascii -> bool) (s : chars) : chars :=
  reverse (lstrip p (reverse s)).

(** [s.strip()] and [s.strip(set)] *)
Definition strip_with (p : ascii -> bool) (s : chars) : chars :=
  rstrip p (lstrip p s).
Definition py_strip (s : chars) : chars := strip_with is_space s.

Definition lower_char (c : ascii) : ascii :=
  let n := nat_of_ascii c in
  if ((65 <=? n) && (n <=? 90))%nat then ascii_of_nat (n + 32) else c.
Definition upper_char (c : ascii) : ascii :=
  let n := nat_of_ascii c in
  if ((97 <=? n) && (n <=? 122))%nat then ascii_of_nat (n - 32) else c.
Definition py_lower (s : chars) : chars := lower_char <$> s.
Definition py_upper (s : chars) : chars := upper_char <$> s.

(** [s.split(sep)] for a one-character separator: never empty. *)
Fixpoint py_split (sep : ascii) (s : chars) : list chars :=
  match s with
  | [] => [[]]
  | c :: r =>
      if ascii_eqb c sep then [] :: py_split sep r
      else match py_split sep r with
           | w :: ws => (c :: w) :: ws
           | [] => [[c]]
           end
  end.

(** [s.split()]: the maximal runs of characters that are not white space. *)
Fixpoint py_split_ws_aux (s : chars) (cur : chars) : list chars :=
  match s with
  | [] => match cur with [] => [] | _ => [reverse cur] end
  | c :: r =>
      if is_space c then
        match cur with
        | [] => py_split_ws_aux r []
        | _ => reverse cur :: py_split_ws_aux r []
        end
      else py_split_ws_aux r (c :: cur)
  end.
Definition py_split_ws (s : chars) : list chars := py_split_ws_aux s [].

Definition contains_char (c : ascii) (s : chars) : bool :=
  existsb (ascii_eqb c) s.

Definition startswith_char (c : ascii) (s : chars) : bool :=
  match s with x :: _ => ascii_eqb x c | [] => false end.

Definition digit_of (c : ascii) : option Z :=
  let n := nat_of_ascii c in
  if ((48 <=? n) && (n <=? 57))%nat then Some (Z.of_nat (n - 48)) else None.

(** Digits with single underscores between them, as [int] accepts. *)
Fixpoint digits (s : chars) (acc : Z) (after_digit : bool) : option Z :=
  match s with
  | [] => if after_digit then Some acc else None
  | c :: r =>
      match digit_of c with
      | Some d => digits r (acc * 10 + d) true
      | None =>
          if ascii_eqb c (ch "_") && after_digit then digits r acc false
          else None
      end
  end.

(** [int(s)] *)
Definition py_int (s : chars) : result Z :=
  let body := py_strip s in
  let '(sign, ds) :=
    match body with
    | c :: r =>
        if ascii_eqb c (ch "-") then (-1, r)
        else if ascii_eqb c (ch "+") then (1, r)
        else (1, body)
    | [] => (1, body)
    end in
  match digits ds 0 false with
  | Some n => Ok (sign * n)
  | None => Raise ValueError
  end.

Definition digit_char (d : Z) : ascii := ascii_of_nat (48 + Z.to_nat d).

Fixpoint nat_digits (fuel : nat) (n : Z) (acc : chars) : chars :=
  match fuel with
  | O => acc
  | S f =>
      let acc' := digit_char (n mod 10) :: acc in
      if n / 10 =? 0 then acc' else nat_digits f (n / 10) acc'
  end.

(** [str(n)] of an integer. *)
Definition py_str_int (n : Z) : chars :=
  if n <? 0 then ch "-" :: nat_digits (S (Z.to_nat (- n))) (- n) []
  else nat_digits (S (Z.to_nat n)) n [].

Definition str (s : chars) : string := String.string_of_list_ascii s.
Definition unstr (s : string) : chars := String.list_ascii_of_string s.

(** ** [class MLTokenizer] *)

(** The [value] of a token while it is parsed: absent, text, or one of the
    reserved values. *)
Inductive tokval := TNone | TStr (s : chars) | TSpecial (c : special_value).

(** [Directions] ([terminedia.py]): the unit vectors by name. *)
Definition Directions (name : string) : option (Z * Z) :=
  if decide (name = "UP") then Some (0, -1)
  else if decide (name = "RIGHT") then Some (1, 0)
  else if decide (name = "DOWN") then Some (0, 1)
  else if decide (name = "LEFT") then Some (-1, 0)
  else None.

Module MLTokenizer.
Section Tokenizer.
Local Open Scope py_scope.

(** Collaborators that [style.py] imports and [src] does not hold:
    the constructor [Color], the table [Effects.__members__], and what the
    two [str] methods the parser calls on [value] do when [value] is a
    reserved value ([value and value.startswith("(")], [value.split("|")]). *)
Variable Color : tokval -> result pyval.
Variable Effects_members : string -> option Z.
Variable special_startswith_paren : special_value -> result bool.
Variable special_split_bar : special_value -> result (list chars).

Record t := mk {
  raw_text : string;
  parsed_text : option string;
  mark_sequence : option (list (Z * cell))
}.

Definition update (self : t) (text : string) : t :=
  mk (raw_text self +:+ text) (parsed_text self) (mark_sequence self).

Definition __init__ (initial : string) : t :=
  update (mk "" None None) initial.

(** *** The pattern [(?<!\[)\[[^\[].*?\]] *)

Definition newline : ascii := ascii_of_nat 10.

(** [.*?\]] from here: the text up to the first closing bracket, if no
    line end comes before it. *)
Fixpoint find_close (s : chars) : option chars :=
  match s with
  | [] => None
  | c :: r =>
      if ascii_eqb c (ch "]") then Some []
      else if ascii_eqb c newline then None
      else cons c <$> find_close r
  end.

(** The match that starts at character [c], with [prev] before it and
    [rest] after it. *)
Definition match_at (prev : option ascii) (c : ascii) (rest : chars) : option chars :=
  if ascii_eqb c (ch "[")
     && negb (bool_decide (prev = Some (ch "["))) then
    match rest with
    | n :: r =>
        if ascii_eqb n (ch "[") then None
        else (fun body => c :: n :: body ++ [ch "]"]) <$> find_close r
    | [] => None
    end
  else None.

Definition is_bracket (c : ascii) : bool :=
  ascii_eqb c (ch "[") || ascii_eqb c (ch "]").

(** [_parser.sub(annotate_and_strip_tokens, raw_text)]: the text without
    the matches, and for every match its start in that text and the token
    without its brackets.  [skip] counts the characters of the current
    match still to pass; [offset] is the length of the matches so far. *)
Fixpoint sub (s : chars) (prev : option ascii) (skip : nat) (pos offset : Z)
    : chars * list (Z * chars) :=
  match s with
  | [] => ([], [])
  | c :: rest =>
      match skip with
      | S k => sub rest (Some c) k (pos + 1) offset
      | O =>
          match match_at prev c rest with
          | Some token =>
              let n := length token in
              let '(text, raw_tokens) :=
                sub rest (Some c) (n - 1) (pos + 1) (offset + Z.of_nat n) in
              (text, (pos - offset, strip_with is_bracket token) :: raw_tokens)
          | None =>
              let '(text, raw_tokens) := sub rest (Some c) 0 (pos + 1) offset in
              (c :: text, raw_tokens)
          end
      end
  end.

(** *** [_tokens_to_marks] *)

Definition attribute_names : list string :=
  ["effects"; "color"; "foreground"; "background"; "direction";
   "pretransformer"; "char"; "font"].

Definition in_names (a : string) (l : list string) : bool :=
  bool_decide (a ∈ l).

Definition tokval_is (v : tokval) (s : string) : bool :=
  match v with TStr x => bool_decide (str x = s) | _ => false end.

(** [closing_mark.attributes["pretransformer"] += f" {spam}"] *)
Fixpoint add_spam (attrs : list (string * pyval)) (spam : Z)
    : result (list (string * pyval)) :=
  match attrs with
  | [] => Raise KeyError
  | (k, v) :: r =>
      if decide (k = "pretransformer") then
        match v with
        | VStr s => Ok ((k, VStr (s +:+ " " +:+ str (py_str_int spam))) :: r)
        | _ => Raise TypeError
        end
      else
        let? r' := add_spam r spam in Ok ((k, v) :: r')
  end.

Definition mark_add_spam (m : Mark) (spam : Z) : result Mark :=
  match attributes m with
  | Some attrs =>
      let? attrs' := add_spam attrs spam in
      Ok (mkMark (Some attrs') (pop_attributes m) (moveto m) (rmoveto m) (index m))
  | None => Raise TypeError
  end.

(** The mark an opening transformer tag created, found again by its
    offset and its rank among the tokens of that offset, and updated in
    place. *)
Definition close_transformer (marks : list (Z * cell)) (oppening_offset : Z)
    (oppening_repeat : nat) (spam : Z) : result (list (Z * cell)) :=
  match od_get marks oppening_offset with
  | None => Raise KeyError
  | Some (One m) =>
      let? m' := mark_add_spam m spam in
      Ok (od_set marks oppening_offset (One m'))
  | Some (Many l) =>
      match l !! oppening_repeat with
      | None => Raise IndexError
      | Some m =>
          let? m' := mark_add_spam m spam in
          Ok (od_set marks oppening_offset (Many (<[oppening_repeat := m']> l)))
      end
  end.

(** [Mark.merge(m1, m2)] *)
Definition merge (m1 : cell) (m2 : Mark) : cell :=
  match m1 with
  | One m => Many [m; m2]
  | Many l => Many (l ++ [m2])
  end.

(** The local variables of the loop. *)
Record locals := mkLocals {
  transformer_stack : list (tokval * Z * nat);
  last_offset : Z;
  offset_repeat_counter : Z
}.

Definition sign_prefixed (s : chars) : result bool :=
  match s with
  | c :: _ => Ok (ascii_eqb c (ch "+") || ascii_eqb c (ch "-"))
  | [] => Raise IndexError
  end.

Definition attribute_value (action : string) (value : tokval) : result pyval :=
  if in_names action ["color"; "foreground"; "background"] then Color value
  else if decide (action = "effects") then
    let? parts :=
      match value with
      | TStr s => Ok (py_split (ch "|") s)
      | TSpecial c => special_split_bar c
      | TNone => Raise AttributeError
      end in
    Ok (VInt (foldr Z.add 0
                ((fun v => default 0 (Effects_members (str (py_strip v)))) <$> parts)))
  else if decide (action = "direction") then
    match value with
    | TStr s =>
        match Directions (str (py_upper s)) with
        | Some d => Ok (VV2 d)
        | None => Raise AttributeError
        end
    | _ => Raise AttributeError
    end
  else
    Ok (match value with
        | TStr s => VStr (str s)
        | TSpecial c => VSpecial c
        | TNone => VNone
        end).

(** One round of [for offset, token in raw_tokens]. *)
Definition token_step (lc : locals) (tok : Z * chars)
    : M (list (Z * cell)) locals :=
  let '(offset, token) := tok in
  let offset_repeat_counter :=
    if offset =? last_offset lc then offset_repeat_counter lc + 1 else 0 in
  let last_offset := offset in
  let* (action, value) :=
    mlift
      (if contains_char (ch ":") token then
         match py_strip <$> py_split (ch ":") token with
         | [action; value] =>
             let action := str (py_lower action) in
             let action := if decide (action = "effect") then "effects" else action in
             let value :=
               if negb (in_names action ["transformer"; "font"; "char"])
               then py_lower value else value in
             Ok (action, TStr value)
         | _ => Raise ValueError
         end
       else
         let action := str (py_strip token) in
         if in_names action ["left"; "right"; "up"; "down"]
         then Ok ("direction", TStr (unstr action))
         else Ok (action, TNone)) in
  let '(starting_tag, action) :=
    if startswith_char (ch "/") (unstr action)
    then (false, str (tail (unstr action)))
    else (true, action) in
  let value :=
    if in_names action ["color"; "foreground"] && tokval_is value "default"
    then TSpecial DEFAULT_FG else value in
  let value :=
    if bool_decide (action = "background") && tokval_is value "default"
    then TSpecial DEFAULT_BG else value in
  let value :=
    if tokval_is value "transparent"
       && in_names action ["effects"; "color"; "foreground"; "background"]
    then TSpecial TRANSPARENT else value in
  let* is_literal :=
    mlift match value with
          | TNone => Ok false
          | TStr s => Ok (startswith_char (ch "(") s)
          | TSpecial c => special_startswith_paren c
          end in
  (* [ast.literal_eval]: the module does not import [ast] *)
  (if is_literal && in_names action ["color"; "foreground"; "background"]
   then mraise NameError else mret tt) ;;
  let* (action, transformer_stack) :=
    (if decide (action = "transformer") then
       if starting_tag then
         mret ("pretransformer",
               transformer_stack lc
               ++ [(value, offset, Z.to_nat offset_repeat_counter)])
       else
         match reverse (transformer_stack lc) with
         | [] => mraise IndexError
         | (closing_transformer, oppening_offset, oppening_repeat) :: below =>
             let* has_space :=
               mlift match closing_transformer with
                     | TStr s => Ok (contains_char (ch " ") s)
                     | _ => Raise TypeError
                     end in
             (if has_space then mret tt
              else
                let* marks := mget in
                let* marks' :=
                  mlift (close_transformer marks oppening_offset oppening_repeat
                           (offset - oppening_offset)) in
                mput marks') ;;
             mret ("pretransformer", reverse below)
         end
     else mret (action, transformer_stack lc)) in
  let* (attributes, pop_attributes) :=
    (if in_names action attribute_names then
       if starting_tag then
         let* v := mlift (attribute_value action value) in
         mret (Some [(action, v)], None)
       else mret (None, Some [action])
     else mret (None, None)) in
  let* (moveto, rmoveto) :=
    (if contains_char (ch ",") (unstr action)
        && bool_decide (attributes = None :> option (list (string * pyval)))
        && bool_decide (pop_attributes = None :> option (list string))
     then
       match py_strip <$> py_split (ch ",") (unstr action) with
       | [nx; ny] =>
           let* nnx := mlift (py_int nx) in
           let* nny := mlift (py_int ny) in
           let* sx := mlift (sign_prefixed nx) in
           let* sy := mlift (sign_prefixed ny) in
           mret (match sx, sy with
                 | true, true => (None, Some (nnx, nny))
                 | true, false => (Some (RETAIN_POS, MAt nny), Some (nnx, 0))
                 | false, true => (Some (MAt nnx, RETAIN_POS), Some (0, nny))
                 | false, false => (Some (MAt nnx, MAt nny), None)
                 end)
       | _ => mraise ValueError
       end
     else mret (None, None)) in
  let mark := mkMark attributes pop_attributes moveto rmoveto None in
  let* marks := mget in
  let slot :=
    match od_get marks offset with
    | Some m1 => merge m1 mark
    | None => One mark
    end in
  mput (od_set marks offset slot) ;;
  mret (mkLocals transformer_stack last_offset offset_repeat_counter).

Fixpoint tokens_loop (lc : locals) (raw_tokens : list (Z * chars))
    : M (list (Z * cell)) unit :=
  match raw_tokens with
  | [] => mret tt
  | tok :: rest =>
      let* lc' := token_step lc tok in
      tokens_loop lc' rest
  end.

(** [self.mark_sequence = {}], then the loop. *)
Definition _tokens_to_marks (raw_tokens : list (Z * chars))
    : result unit * list (Z * cell) :=
  tokens_loop (mkLocals [] (-1) (-1)) raw_tokens [].

Definition parse : M t unit := fun self =>
  let '(text, raw_tokens) := sub (unstr (raw_text self)) None 0 0 0 in
  let parsed_text := str text in
  let '(r, marks) := _tokens_to_marks raw_tokens in
  (r, mk (raw_text self) (Some parsed_text) (Some marks)).

End Tokenizer.
End MLTokenizer.

(** ** [class Context] ([contexts.py])

    The attributes of a context are the entries of its thread-local
    namespace; the class-level [ContextVar]s give seven of them a default.
    A value stored through a [ContextVar] is taken to be of the declared
    type already, so the coercion of [ContextVar.__set__] leaves it as it
    is.  Attribute names that start with an underscore are the context's
    own bookkeeping and are not attributes in this sense. *)

Module Context.

Record t := mk {
  locals : gmap string pyval;
  _stack : list (gmap string pyval)
}.

(** [BlockChars.FULL_BLOCK] *)
Definition FULL_BLOCK : string := "█".

(** The defaults of the class-level [ContextVar]s. *)
Definition defaults : gmap string pyval :=
  list_to_map
    [ ("char", VStr FULL_BLOCK);
      ("color", VSpecial DEFAULT_FG);
      ("background", VSpecial DEFAULT_BG);
      ("effects", VInt 0);
      ("direction", VV2 (1, 0));
      ("transformer", VNone);
      ("font", VStr "") ].

Definition getattr (c : t) (name : string) : result pyval :=
  match locals c !! name with
  | Some v => Ok v
  | None =>
      match defaults !! name with
      | Some v => Ok v
      | None => Raise AttributeError
      end
  end.

Definition setattr (c : t) (name : string) (v : pyval) : t :=
  mk (<[name := v]> (locals c)) (_stack c).

(** [_update(params)] *)
Definition _update (c : t) (params : gmap string pyval) : t :=
  mk (params ∪ locals c) (_stack c).

(** What [__iter__] yields: every [ContextVar] and every other name of
    the namespace, each with its current value. *)
Definition items (c : t) : gmap string pyval := locals c ∪ defaults.

(** [Context()]: [_update_from_global] copies the attributes of the root
    context [terminedia.context], except its two default colours. *)
Definition new (root : gmap string pyval) : t :=
  mk (delete "default_bg" (delete "default_fg" root)) [].

(** [__call__] followed by [__enter__]: the namespace is saved on
    the stack, then the new parameters are set. *)
Definition enter (c : t) (new_parameters : gmap string pyval) : t :=
  mk (new_parameters ∪ locals c) (_stack c ++ [locals c]).

(** [__exit__]: the saved attributes are set again; an attribute created
    inside the block is not in the saved namespace and stays. *)
Definition exit (c : t) : result t :=
  match reverse (_stack c) with
  | saved :: below => Ok (mk (saved ∪ locals c) (reverse below))
  | [] => Raise IndexError
  end.

End Context.

(** ** The text plane, cell by cell ([class Text], [planes.py])

    One [Text] bound to a plane: its grid, its [MarkMap] and itself as the
    object the [MarkMap] asks for the size (both in the store), the tick
    counter, the retained writings, and the collaborators: the context of
    the owner and the owner's canvas, of which the model keeps what [blit]
    forwards to it. *)

Module Text.
Section Cells.
Local Open Scope py_scope.

Variable EMPTY : string.

Record t := mk {
  plane : CharPlaneData.t;
  marks : nat;
  this : nat;
  ticks : Z;
  writtings : list nat;
  writtings_index : gset nat;
  last_pos : option (Z * Z);           (* planes[current_plane]["last_pos"] *)
  transformers_map : gmap string Transformer;
  owner_context : Context.t;
  canvas : list ((Z * Z) * string)
}.

Definition set_plane (v : CharPlaneData.t) (s : t) : t :=
  mk v (marks s) (this s) (ticks s) (writtings s) (writtings_index s)
     (last_pos s) (transformers_map s) (owner_context s) (canvas s).
Definition set_ticks (v : Z) (s : t) : t :=
  mk (plane s) (marks s) (this s) v (writtings s) (writtings_index s)
     (last_pos s) (transformers_map s) (owner_context s) (canvas s).
Definition set_writtings (v : list nat) (s : t) : t :=
  mk (plane s) (marks s) (this s) (ticks s) v (writtings_index s)
     (last_pos s) (transformers_map s) (owner_context s) (canvas s).
Definition set_writtings_index (v : gset nat) (s : t) : t :=
  mk (plane s) (marks s) (this s) (ticks s) (writtings s) v
     (last_pos s) (transformers_map s) (owner_context s) (canvas s).
Definition set_last_pos (v : option (Z * Z)) (s : t) : t :=
  mk (plane s) (marks s) (this s) (ticks s) (writtings s) (writtings_index s)
     v (transformers_map s) (owner_context s) (canvas s).
Definition set_owner_context (v : Context.t) (s : t) : t :=
  mk (plane s) (marks s) (this s) (ticks s) (writtings s) (writtings_index s)
     (last_pos s) (transformers_map s) v (canvas s).
Definition set_canvas (v : list ((Z * Z) * string)) (s : t) : t :=
  mk (plane s) (marks s) (this s) (ticks s) (writtings s) (writtings_index s)
     (last_pos s) (transformers_map s) (owner_context s) v.

Definition modify (f : t -> t) : M t unit := fun s => (Ok tt, f s).

(** [blit(index, clear=True)] with the owner as target: the grapheme of
    the cell goes to the canvas.  Scaling, padding and the rasterizer
    belong to the canvas side. *)
Definition blit (index : Z * Z) (clear : bool) : M t unit :=
  let* s := mget in
  let* char := mlift (CharPlaneData.__getitem__ EMPTY (plane s) index) in
  if bool_decide (char = EMPTY) && negb clear then mret tt
  else modify (set_canvas (canvas s ++ [(index, char)])).

Definition _char_at (char : string) (pos : Z * Z) : M t unit :=
  let* s := mget in
  match CharPlaneData.__setitem__ (plane s) pos char with
  | Raise IndexError => mret tt
  | Raise e => mraise e
  | Ok plane' =>
      modify (set_plane plane') ;;
      modify (fun s => set_owner_context
                         (Context.setattr (owner_context s) "last_pos" (VV2 pos)) s) ;;
      modify (set_last_pos (Some pos)) ;;
      blit pos true
  end.

(** [_render_styled_lock(context)] up to its [yield]: the owner context
    is entered with the sequence's context as a parameter. *)
Definition render_lock_enter (context_ref : nat) : M t unit :=
  modify (fun s => set_owner_context
                     (Context.enter (owner_context s) {[ "context" := VRef context_ref ]}) s).

(** [_render_styled_lock] after its [yield]: the owner context is left. *)
Definition render_lock_exit : M t unit :=
  let* s := mget in
  let* c := mlift (Context.exit (owner_context s)) in
  modify (set_owner_context c).

End Cells.
End Text.

(** ** [class StyledSequence] *)

(** A copy of a transformer made by [_context_push], with the attributes
    injected into it. *)
Record TransformerObj := mkTransformerObj {
  tr_base : Transformer;
  sequence_len : Z;
  sequence : list string;
  sequence_absolute_start : Z;
  sequence_index : option Z
}.

(** [l[a:b]] *)
Definition py_slice {A} (l : list A) (a b : Z) : list A :=
  let n := Z.of_nat (length l) in
  let norm := fun i => if i <? 0 then Z.max 0 (i + n) else Z.min i n in
  let a' := norm a in
  let b' := norm b in
  take (Z.to_nat (b' - a')) (drop (Z.to_nat a') l).

(** [range(0, n)] *)
Definition py_range (n : Z) : list Z := Z.of_nat <$> seq 0 (Z.to_nat n).

Definition v2_add (a b : Z * Z) : Z * Z := (a.1 + b.1, a.2 + b.2).

Module StyledSequence.

Local Open Scope py_scope.

Record t := mk {
  text : list string;
  mark_sequence : SeqData;
  _last_index_processed : option Z;
  context : Context.t;
  text_plane : bool;                 (* attached to the text plane, or None *)
  starting_point : Z * Z;
  current_position : Z * Z;
  _sanity_counter : Z;
  context_map : option (gmap string (list (pyval * origin)));  (* locals.context_map *)
  marks : option nat;                (* the rendering copy of the MarkMap *)
  _active_transformers : option (list nat);
  _parent_context_data : option (gmap string pyval);
  transformers : list TransformerObj (* the copies made so far *)
}.

(** [__init__]; [parent_context] is stored and never read. *)
Definition __init__ (root : gmap string pyval) (text : list string)
    (mark_sequence : SeqData) (text_plane : bool)
    (starting_point : option (Z * Z)) : t :=
  let sp := default (0, 0) starting_point in
  mk text mark_sequence None (Context.new root) text_plane sp sp 0
     None None None None [].

Definition set_last (v : option Z) (s : t) : t :=
  mk (text s) (mark_sequence s) v (context s) (text_plane s)
     (starting_point s) (current_position s) (_sanity_counter s)
     (context_map s) (marks s) (_active_transformers s)
     (_parent_context_data s) (transformers s).
Definition set_context (v : Context.t) (s : t) : t :=
  mk (text s) (mark_sequence s) (_last_index_processed s) v (text_plane s)
     (starting_point s) (current_position s) (_sanity_counter s)
     (context_map s) (marks s) (_active_transformers s)
     (_parent_context_data s) (transformers s).
Definition set_position (v : Z * Z) (s : t) : t :=
  mk (text s) (mark_sequence s) (_last_index_processed s) (context s)
     (text_plane s) (starting_point s) v (_sanity_counter s)
     (context_map s) (marks s) (_active_transformers s)
     (_parent_context_data s) (transformers s).
Definition set_sanity (v : Z) (s : t) : t :=
  mk (text s) (mark_sequence s) (_last_index_processed s) (context s)
     (text_plane s) (starting_point s) (current_position s) v
     (context_map s) (marks s) (_active_transformers s)
     (_parent_context_data s) (transformers s).
Definition set_context_map (v : option (gmap string (list (pyval * origin))))
    (s : t) : t :=
  mk (text s) (mark_sequence s) (_last_index_processed s) (context s)
     (text_plane s) (starting_point s) (current_position s)
     (_sanity_counter s) v (marks s) (_active_transformers s)
     (_parent_context_data s) (transformers s).
Definition set_marks (v : option nat) (s : t) : t :=
  mk (text s) (mark_sequence s) (_last_index_processed s) (context s)
     (text_plane s) (starting_point s) (current_position s)
     (_sanity_counter s) (context_map s) v (_active_transformers s)
     (_parent_context_data s) (transformers s).
Definition set_active (v : option (list nat)) (s : t) : t :=
  mk (text s) (mark_sequence s) (_last_index_processed s) (context s)
     (text_plane s) (starting_point s) (current_position s)
     (_sanity_counter s) (context_map s) (marks s) v
     (_parent_context_data s) (transformers s).
Definition set_parent_data (v : option (gmap string pyval)) (s : t) : t :=
  mk (text s) (mark_sequence s) (_last_index_processed s) (context s)
     (text_plane s) (starting_point s) (current_position s)
     (_sanity_counter s) (context_map s) (marks s) (_active_transformers s)
     v (transformers s).
Definition set_transformers (v : list TransformerObj) (s : t) : t :=
  mk (text s) (mark_sequence s) (_last_index_processed s) (context s)
     (text_plane s) (starting_point s) (current_position s)
     (_sanity_counter s) (context_map s) (marks s) (_active_transformers s)
     (_parent_context_data s) v.

Definition modify (f : t -> t) : M t unit := fun s => (Ok tt, f s).

(** What the sequence reads from its surroundings while it processes
    marks: the store that holds its rendering copy of the [MarkMap], and
    [text_plane.transformers_map]. *)
Record env := mkEnv {
  e_heap : heap;
  e_transformers_map : gmap string Transformer
}.

Definition seq_attrs (key : string) : option string :=
  if decide (key = "transformer") then Some "transformers"
  else if decide (key = "pretransformer") then Some "pretransformers"
  else None.

Fixpoint remove_first_origin (o : origin) (l : list (pyval * origin))
    : list (pyval * origin) :=
  match l with
  | [] => []
  | x :: r => if decide (x.2 = o) then r else x :: remove_first_origin o r
  end.

(** The loop over [reversed(stack)] with its [stack.pop(-(i + 1))]: the
    entry nearest to the top whose origin is [mark_origin] goes. *)
Definition pop_origin (o : origin) (stack : list (pyval * origin))
    : list (pyval * origin) :=
  reverse (remove_first_origin o (reverse stack)).

Definition load_cm : M t (gmap string (list (pyval * origin))) :=
  fun s => match context_map s with
           | Some cm => (Ok cm, s)
           | None => (Raise AttributeError, s)
           end.

(** One round of [for key in pop_attributes]. *)
Definition pop_one (mark_origin : origin) (changed : list string)
    (key : string) : M t (list string) :=
  let key := default key (seq_attrs key) in
  let* cm := load_cm in
  let stack := default [] (cm !! key) in
  modify (set_context_map (Some (<[key := stack]> cm))) ;;
  match stack with
  | [] => mret changed
  | _ =>
      modify (set_context_map
                (Some (<[key := pop_origin mark_origin stack]> cm))) ;;
      mret (changed ++ [key])
  end.

(** The transformer branch of a push: the value that goes on the stack. *)
Definition push_transformer (E : env) (key : string) (value : pyval)
    (index : Z) : M t pyval :=
  let* s := mget in
  let* new_value := mlift (Context.getattr (context s) key) in
  let spam := Z.of_nat (length (text s)) - index in
  let* (value, spam) :=
    match value with
    | VStr v =>
        let* (name, spam) :=
          (if contains_char (ch " ") (unstr v) then
             match py_split_ws (unstr v) with
             | [name; n] =>
                 let* n := mlift (py_int n) in mret (str name, n)
             | _ => mraise ValueError
             end
           else mret (v, spam)) in
        if text_plane s then mret (e_transformers_map E !! name, spam)
        else mraise AttributeError
    | VTransformer tr => mret (Some tr, default spam (tr_sequence_len tr))
    | _ => mret (None, spam)
    end in
  match value with
  | None => mraise AttributeError
  | Some tr =>
      let obj := mkTransformerObj tr spam
                   (py_slice (text s) index (index + spam)) index None in
      let loc := length (transformers s) in
      modify (set_transformers (transformers s ++ [obj])) ;;
      match _active_transformers s with
      | Some active => modify (set_active (Some (active ++ [loc])))
      | None => mraise AttributeError
      end ;;
      match new_value with
      | VContainer items => mret (VContainer (items ++ [TLocal loc]))
      | _ => mraise AttributeError
      end
  end.

(** One round of [for key, value in attributes.items()]. *)
Definition push_one (E : env) (mark_origin : origin) (index : Z)
    (changed : list string) (item : string * pyval) : M t (list string) :=
  let '(key, value) := item in
  let* (key, value) :=
    match seq_attrs key with
    | Some key' =>
        let* v := push_transformer E key' value index in mret (key', v)
    | None => mret (key, value)
    end in
  let* cm := load_cm in
  let stack := default [] (cm !! key) in
  modify (set_context_map (Some (<[key := stack ++ [(value, mark_origin)]]> cm))) ;;
  mret (changed ++ [key]).

Fixpoint mfold {S A B} (f : B -> A -> M S B) (l : list A) (b : B) : M S B :=
  match l with
  | [] => mret b
  | x :: r => let* b' := f b x in mfold f r b'
  end.

(** One round of [for attr in changed]. *)
Definition write_back (attr : string) : M t unit :=
  let* cm := load_cm in
  match reverse (default [] (cm !! attr)) with
  | top :: _ => modify (fun s => set_context (Context.setattr (context s) attr top.1) s)
  | [] => mret tt
  end.

Definition _context_push (E : env) (attributes : option (list (string * pyval)))
    (pop_attributes : option (list string)) (mark_origin : origin)
    (index : Z) : M t unit :=
  let* _ := load_cm in
  let attributes := default [] attributes in
  let pop_attributes := default [] pop_attributes in
  let* changed := mfold (pop_one mark_origin) pop_attributes [] in
  let* changed := mfold (push_one E mark_origin index) attributes changed in
  mfor changed write_back.

Definition _reset_context : M t unit :=
  let* s := mget in
  match _parent_context_data s with
  | None => mraise AttributeError
  | Some data =>
      (* the copies of the two transformer containers are equal values *)
      modify (set_context (Context._update (context s) data))
  end.

Definition nonempty {A} (o : option (list A)) : bool :=
  match o with Some (_ :: _) => true | _ => false end.

(** The body of [for mark_here, mark_origin in ...]. *)
Definition apply_mark (E : env) (index : Z) (item : Mark * origin) : M t unit :=
  let '(mark_here, mark_origin) := item in
  (if nonempty (attributes mark_here) || nonempty (pop_attributes mark_here)
   then _context_push E (attributes mark_here) (pop_attributes mark_here)
          mark_origin index
   else mret tt) ;;
  match moveto mark_here with
  | Some (mtx, mty) =>
      modify (fun s =>
        let mtx := match mtx with MAt x => x | RETAIN_POS => (current_position s).1 end in
        let mty := match mty with MAt y => y | RETAIN_POS => (current_position s).2 end in
        set_position (mtx, mty) s)
  | None => mret tt
  end ;;
  match rmoveto mark_here with
  | Some d => modify (fun s => set_position (v2_add (current_position s) d) s)
  | None => mret tt
  end.

(** [_process_to] from its [for] loop on. *)
Definition process_marks (E : env) (index : Z) : M t Context.t :=
  let* s := mget in
  let* marks :=
    match marks s with
    | Some l => mret l
    | None => mraise AttributeError
    end in
  let* found :=
    mlift (MarkMap.get_full marks index (current_position s) (e_heap E)).1 in
  mfor found (apply_mark E index) ;;
  modify (set_last (Some index)) ;;
  let* s := mget in
  mret (context s).

(** [_reprocess_from_start], with the [_process_to] it calls back. *)
Definition reprocess_with (process_to : Z -> M t Context.t) (index : Z)
    : M t Context.t :=
  modify (fun s => set_sanity (_sanity_counter s + 1) s) ;;
  let* s := mget in
  (if 1 <? _sanity_counter s then mraise RuntimeError else mret tt) ;;
  _reset_context ;;
  modify (set_last None) ;;
  mfor (py_range (index + 1))
       (fun i => let* _ := process_to i in mret tt) ;;
  modify (fun s => set_sanity (_sanity_counter s - 1) s) ;;
  let* s := mget in
  mret (context s).

(** [_process_to] and [_reprocess_from_start] call each other; [depth]
    is the depth of calls the interpreter has left. *)
Fixpoint _process_to (depth : nat) (E : env) (index : Z) : M t Context.t :=
  match depth with
  | O => mraise RecursionError
  | S depth' =>
      let* s := mget in
      match _last_index_processed s with
      | None =>
          if index =? 0 then
            modify (set_position (starting_point s)) ;;
            process_marks E index
          else reprocess_with (_process_to depth' E) index
      | Some last =>
          if negb (index =? last + 1)
          then reprocess_with (_process_to depth' E) index
          else process_marks E index
      end
  end.

Definition _reprocess_from_start (depth : nat) (E : env) (index : Z)
    : M t Context.t :=
  reprocess_with (_process_to depth E) index.

(** *** Iteration and rendering

    From here on a sequence works on more than itself: the store (where
    [prepare] builds the rendering copy), the text plane it is attached
    to, and the root context [terminedia.context]. *)

Record rstate := mkR {
  r_heap : heap;
  r_text : Text.t;
  r_self : t;
  r_root : gmap string pyval
}.

Definition on_self {A} (c : M t A) : M rstate A :=
  fun r => let '(a, s') := c (r_self r) in
           (a, mkR (r_heap r) (r_text r) s' (r_root r)).
Definition on_heap {A} (c : M heap A) : M rstate A :=
  fun r => let '(a, h') := c (r_heap r) in
           (a, mkR h' (r_text r) (r_self r) (r_root r)).
Definition on_text {A} (c : M Text.t A) : M rstate A :=
  fun r => let '(a, t') := c (r_text r) in
           (a, mkR (r_heap r) t' (r_self r) (r_root r)).

Definition the_env : M rstate env :=
  fun r => (Ok (mkEnv (r_heap r) (Text.transformers_map (r_text r))), r).

(** [try: c finally: f] *)
Definition mfinally {S A} (c : M S A) (f : M S unit) : M S A :=
  fun s => let '(r, s') := c s in
           match f s' with
           | (Ok _, s'') => (r, s'')
           | (Raise e, s'') => (Raise e, s'')
           end.

(** [terminedia.utils.get_current_tick] *)
Definition get_current_tick (root : gmap string pyval) : Z :=
  match root !! "ticks" with Some (VInt n) => n | _ => 0 end.

(** The identity of [self.context] is not followed; this stands for it. *)
Definition context_ref : nat := 0.

Definition _enter_iteration : M rstate unit :=
  let* r := mget in
  let s := r_self r in
  on_self (modify (set_context_map
                     (Some ((fun value => [(value, Original)])
                              <$> Context.items (context s))))) ;;
  let* marks :=
    (if text_plane s then mret (Text.marks (r_text r))
     else on_heap (MarkMap.new None)) in
  let* instance :=
    on_heap (MarkMap.prepare marks (mark_sequence s)
               (if text_plane s then Text.ticks (r_text r)
                else get_current_tick (r_root r))
               (text s) (Some context_ref)) in
  on_self (modify (set_marks (Some instance))) ;;
  on_self (modify (set_active (Some []))).

Definition remove_tref (loc : nat) (items : list tref) : list tref :=
  filter (fun x => x ≠ TLocal loc) items.

(** [container.remove(tr)], which a TransformersContainer accepts for a
    transformer it does not hold. *)
Definition container_remove (loc : nat) (v : pyval) : result pyval :=
  match v with
  | VContainer items => Ok (VContainer (remove_tref loc items))
  | _ => Raise AttributeError
  end.

Fixpoint stack_remove (loc : nat) (stack : list (pyval * origin))
    : result (list (pyval * origin)) :=
  match stack with
  | [] => Ok []
  | (container, o) :: r =>
      let? c := container_remove loc container in
      let? r' := stack_remove loc r in
      Ok ((c, o) :: r')
  end.

Definition remove_in (tr : nat) (key : string) : M t unit :=
  let* s := mget in
  let* held := mlift (Context.getattr (context s) key) in
  let* held' := mlift (container_remove tr held) in
  modify (fun s => set_context (Context.setattr (context s) key held') s) ;;
  let* cm := load_cm in
  match cm !! key with
  | None => mraise TypeError
  | Some stack =>
      let* stack' := mlift (stack_remove tr stack) in
      modify (set_context_map (Some (<[key := stack']> cm)))
  end.

(** The copy stays in the store; it leaves the three places that hold
    a reference to it. *)
Definition _remove_transformers (tr : nat) : M t unit :=
  let* s := mget in
  match _active_transformers s with
  | Some active =>
      if bool_decide (tr ∈ active) then
        modify (set_active (Some (filter (fun x => x ≠ tr) active)))
      else mraise ValueError
  | None => mraise AttributeError
  end ;;
  mfor ["transformers"; "pretransformers"] (remove_in tr).

Definition _get_position_at (depth : nat) (E : env) (char : string)
    (index : Z) : M t (Z * Z) :=
  let* s := mget in
  (if bool_decide (_last_index_processed s = Some index) then mret tt
   else let* _ := _process_to depth E index in mret tt) ;;
  let* s := mget in
  let position := current_position s in
  let* direction := mlift (Context.getattr (context s) "direction") in
  match direction with
  | VV2 d => modify (set_position (v2_add position d)) ;; mret position
  | _ => mraise TypeError
  end.

(** [tr.sequence_index = index - tr.sequence_absolute_start], and whether
    the span of [tr] is used up. *)
Definition advance_transformer (index : Z) (to_remove : list nat) (tr : nat)
    : M t (list nat) :=
  let* s := mget in
  match transformers s !! tr with
  | None => mraise AttributeError
  | Some obj =>
      let i := index - sequence_absolute_start obj in
      modify (set_transformers
                (<[tr := mkTransformerObj (tr_base obj) (sequence_len obj)
                           (sequence obj) (sequence_absolute_start obj) (Some i)]>
                   (transformers s))) ;;
      mret (if sequence_len obj <=? i then to_remove ++ [tr] else to_remove)
  end.

(** One round of the loop of [__iter__], up to its [yield]; the context
    of the triple is the context as it is when the triple is handed
    out. *)
Definition iter_round (depth : nat) (index : Z) (char : string)
    : M rstate (string * Context.t * (Z * Z)) :=
  let* E := the_env in
  let* _ := on_self (_process_to depth E index) in
  let* position := on_self (_get_position_at depth E char index) in
  let* r := mget in
  match _active_transformers (r_self r) with
  | None => mraise AttributeError
  | Some [] => mret tt
  | Some active =>
      let* to_remove := on_self (mfold (advance_transformer index) active []) in
      on_self (mfor to_remove _remove_transformers)
  end ;;
  let* r := mget in
  mret (char, context (r_self r), position).

Definition enumerate {A} (l : list A) : list (Z * A) :=
  imap (fun i x => (Z.of_nat i, x)) l.

Fixpoint mmap {S A B} (f : A -> M S B) (l : list A) : M S (list B) :=
  match l with
  | [] => mret []
  | x :: r => let* y := f x in let* ys := mmap f r in mret (y :: ys)
  end.

(** [for values in self: body values]: the generator [__iter__] driven
    by the loop that consumes it.  The [with self.context()] block is
    left on every way out; [self.marks] goes when the text is used up. *)
Definition __iter__ {A} (depth : nat)
    (body : string * Context.t * (Z * Z) -> M rstate A) : M rstate (list A) :=
  _enter_iteration ;;
  on_self (modify (fun s => set_context (Context.enter (context s) ∅) s)) ;;
  let* r := mget in
  let* out :=
    mfinally
      (mmap (fun item =>
               let* values := iter_round depth item.1 item.2 in
               body values)
            (enumerate (text (r_self r))))
      (let* r := mget in
       let* c := mlift (Context.exit (context (r_self r))) in
       on_self (modify (set_context c))) in
  on_self (modify (set_marks None)) ;;
  mret out.

Definition _prepare_context : M rstate unit :=
  let* r := mget in
  on_self (modify (set_context (Context.new (r_root r)))) ;;
  (if text_plane (r_self r) then mret tt else mraise AttributeError) ;;
  on_self (modify (set_parent_data
                     (Some (Context.items (Text.owner_context (r_text r)))))) ;;
  on_self _reset_context.

Definition truthy (v : pyval) : bool :=
  match v with
  | VNone | VInt 0 | VStr "" | VContainer [] => false
  | _ => true
  end.

(** The body of the loop of [render]. *)
Definition render_body (EMPTY : string) (values : string * Context.t * (Z * Z))
    : M rstate unit :=
  let '(char, _, position) := values in
  on_text (Text._char_at EMPTY char position) ;;
  let* r := mget in
  let s := r_self r in
  match Context.getattr (context s) "text_lastchar_was_double" with
  | Ok v =>
      if truthy v then
        let* direction := mlift (Context.getattr (context s) "direction") in
        match direction with
        | VV2 d =>
            if bool_decide (d = (1, 0)) then
              on_self (modify (set_position (v2_add (current_position s) d)))
            else mret tt
        | _ => mret tt
        end
      else mret tt
  | Raise _ => mret tt
  end.

Definition render (EMPTY : string) (depth : nat) : M rstate unit :=
  let* r := mget in
  if negb (text_plane (r_self r)) then mret tt
  else
    _prepare_context ;;
    mfinally
      (on_text (Text.render_lock_enter context_ref) ;;
       let* _ := __iter__ depth (render_body EMPTY) in
       mret tt)
      (on_text Text.render_lock_exit).

End StyledSequence.

(** ** The text plane and its writings ([class Text], continued)

    The methods of [Text] that render sequences.  The sequences are
    objects known by identity: the world holds them by name. *)

Module TextRender.
Section Rendering.
Local Open Scope py_scope.

Variable EMPTY : string.
(** The collaborators of the tokenizer, see [MLTokenizer]. *)
Variable Color : tokval -> result pyval.
Variable Effects_members : string -> option Z.
Variable special_startswith_paren : special_value -> result bool.
Variable special_split_bar : special_value -> result (list chars).
(** The depth of calls the interpreter allows. *)
Variable depth : nat.

Record world := mkW {
  objects : heap;
  text : Text.t;
  seqs : gmap nat StyledSequence.t;
  root : gmap string pyval
}.

Definition on_text {A} (c : M Text.t A) : M world A :=
  fun w => let '(a, t') := c (text w) in
           (a, mkW (objects w) t' (seqs w) (root w)).
Definition on_store {A} (c : M heap A) : M world A :=
  fun w => let '(a, h') := c (objects w) in
           (a, mkW h' (text w) (seqs w) (root w)).

(** [styled.render()] on the sequence object named [styled]. *)
Definition render (styled : nat) : M world unit :=
  fun w =>
    match seqs w !! styled with
    | None => (Raise AttributeError, w)
    | Some s =>
        let '(r, st) :=
          StyledSequence.render EMPTY depth
            (StyledSequence.mkR (objects w) (text w) s (root w)) in
        (r, mkW (StyledSequence.r_heap st) (StyledSequence.r_text st)
                (<[styled := StyledSequence.r_self st]> (seqs w)) (root w))
    end.

Definition render_styled_sequence (styled : nat) : M world unit :=
  let* w := mget in
  (if bool_decide (styled ∈ Text.writtings_index (text w)) then mret tt
   else
     on_text (Text.modify (fun t =>
                Text.set_writtings_index ({[styled]} ∪ Text.writtings_index t) t)) ;;
     on_text (Text.modify (fun t =>
                Text.set_writtings (Text.writtings t ++ [styled]) t))) ;;
  render styled.

Definition update : M world unit :=
  on_text (Text.modify (fun t => Text.set_ticks (Text.ticks t + 1) t)) ;;
  let* w := mget in
  mfor (Text.writtings (text w)) render_styled_sequence.

(** The mark [_reset_marks] puts past the end of every line. *)
Definition line_end_mark : Mark :=
  mkMark None None (Some (MAt 0, RETAIN_POS)) (Some (0, 1)) None.

Definition _reset_marks : M world unit :=
  let* w := mget in
  let marks := Text.marks (text w) in
  on_store (MarkMap.clear marks) ;;
  on_store (let* m := load_markmap marks in store (special m) (HSet [])) ;;
  let* size := on_store (plane_size (Some (Text.this (text w)))) in
  mfor (py_range size.2)
       (fun y => on_store (MarkMap.__setitem__ marks
                             (MarkMap.IPos (CNone, CInt y)) 0 (One line_end_mark))).

Definition clear : M world unit :=
  on_text (Text.modify (Text.set_ticks 0)) ;;
  on_text (Text.modify (Text.set_writtings [])) ;;
  on_text (Text.modify (Text.set_writtings_index ∅)) ;;
  on_text (Text.modify (fun t => Text.set_plane (CharPlaneData.clear (Text.plane t)) t)) ;;
  _reset_marks.

(** [MLTokenizer.__call__]: parse, then build the sequence. *)
Definition tokenize (w : world) (raw : string) (starting_point : Z * Z)
    : result StyledSequence.t :=
  let '(r, tok) :=
    MLTokenizer.parse Color Effects_members special_startswith_paren
      special_split_bar (MLTokenizer.__init__ raw) in
  match r, MLTokenizer.parsed_text tok, MLTokenizer.mark_sequence tok with
  | Ok _, Some parsed, Some marks =>
      Ok (StyledSequence.__init__ (root w)
            ((fun c => String c "") <$> unstr parsed)
            (mkSeqData marks None) true (Some starting_point))
  | Raise e, _, _ => Raise e
  | _, _, _ => Raise AttributeError
  end.


(** What [_build_plane] leaves for a plane of the given size: the [Text]
    itself and its fresh [MarkMap] in the store, an empty grid, no
    writings, and the marks of [_reset_marks]. *)
Definition _build_plane (size : Z * Z) (owner_context : Context.t)
    (transformers_map : gmap string Transformer) (root : gmap string pyval)
    : result unit * world :=
  let '(r, h) :=
    (let* this := alloc (HText size) in
     let* marks := MarkMap.new (Some this) in
     mret (this, marks)) [] in
  match r with
  | Ok (this, marks) =>
      _reset_marks
        (mkW h (Text.mk (CharPlaneData.mk size.1 size.2 ∅) marks this 0 [] ∅
                  None transformers_map owner_context [])
             ∅ root)
  | Raise e =>
      (Raise e,
       mkW h (Text.mk (CharPlaneData.mk size.1 size.2 ∅) 0 0 0 [] ∅
                None transformers_map owner_context []) ∅ root)
  end.

End Rendering.
End TextRender.

(** * Derived definitions

    Notions the statements below are phrased with, and the concrete data
    they are tried on. *)

(** ** The character grid *)

Definition in_bounds (d : CharPlaneData.t) (pos : Z * Z) : Prop :=
  0 <= pos.1 < CharPlaneData.width d ∧ 0 <= pos.2 < CharPlaneData.height d.

Definition grid_3x2 : CharPlaneData.t :=
  CharPlaneData.mk 3 2 (<[(1, 1) := "x"]> ∅).

Definition text_3x2 : Text.t :=
  Text.mk grid_3x2 0 0 0 [] ∅ None ∅ (Context.mk ∅ []) [].

(** ** Reading a [MarkMap] out of the store *)

Definition read_markmap (h : heap) (l : nat) : option MarkMapObj :=
  match h !! l with Some (HMarkMap m) => Some m | _ => None end.
Definition read_dict (h : heap) (l : nat) : option (list (mkey * cell)) :=
  match h !! l with Some (HDict d) => Some d | _ => None end.
Definition read_set (h : heap) (l : nat) : option (list (nat * Mark)) :=
  match h !! l with Some (HSet s) => Some s | _ => None end.
Definition read_concrete (h : heap) (l : nat) : option (list (sindex * list Mark)) :=
  match h !! l with Some (HConcrete d) => Some d | _ => None end.
Definition read_size (h : heap) (l : nat) : option (Z * Z) :=
  match h !! l with Some (HText size) => Some size | _ => None end.

(** The contents of the four parts of a map the specification names. *)
Definition data_of (h : heap) (self : nat) : option (list (mkey * cell)) :=
  m ← read_markmap h self; read_dict h (data m).
Definition relative_data_of (h : heap) (self : nat) : option (list (mkey * cell)) :=
  m ← read_markmap h self; read_dict h (relative_data m).
Definition special_of (h : heap) (self : nat) : option (list (nat * Mark)) :=
  m ← read_markmap h self; read_set h (special m).
Definition concrete_special_of (h : heap) (self : nat)
    : option (list (sindex * list Mark)) :=
  m ← read_markmap h self; read_concrete h (_concrete_special m).
Definition tick_of (h : heap) (self : nat) : option Z :=
  tick <$> read_markmap h self.

(** A map whose parts are where its fields say, of the right kind. *)
Definition wf_markmap (h : heap) (self : nat) : Prop :=
  exists m d rd sp,
    h !! self = Some (HMarkMap m)
    ∧ h !! data m = Some (HDict d)
    ∧ h !! relative_data m = Some (HDict rd)
    ∧ h !! special m = Some (HSet sp)
    ∧ match text_plane m with
      | Some tp => exists size, h !! tp = Some (HText size)
      | None => True
      end.

(** The size of the plane a map is attached to, when it has one. *)
Definition size_of (h : heap) (self : nat) : option (Z * Z) :=
  m ← read_markmap h self; tp ← text_plane m; read_size h tp.

(** Every special mark has an [index] that returns for this tick and
    length. *)
Definition specials_return (specials : list (nat * Mark)) (tick len : Z) : Prop :=
  Forall (fun x => exists f idx, index x.2 = Some f ∧ f tick len = Ok idx) specials.

(** The loop of [concretize_special_marks] on the dictionary alone. *)
Fixpoint special_loop (tick len : Z) (sp : list (nat * Mark))
    (d : list (sindex * list Mark)) : result unit * list (sindex * list Mark) :=
  match sp with
  | [] => (Ok tt, d)
  | x :: r =>
      match index x.2 with
      | Some f =>
          match f tick len with
          | Ok idx =>
              special_loop tick len r
                (od_set d idx (default [] (od_get d idx) ++ [x.2]))
          | Raise e => (Raise e, d)
          end
      | None => (Raise AttributeError, d)
      end
  end.

(** The key under which [concretize_relative_marks] files an index. *)
Definition concrete_key (index : mkey) (size : Z * Z) : mkey :=
  (CInt (concrete_pos index size).1, CInt (concrete_pos index size).2).

(** The loop of [concretize_relative_marks] on the dictionary alone. *)
Fixpoint relative_loop (size : Z * Z) (rd : list (mkey * cell))
    (d : list (mkey * cell)) : list (mkey * cell) :=
  match rd with
  | [] => d
  | (index, mark) :: r =>
      let k := concrete_key index size in
      relative_loop size r
        (od_set d k (_merge_as_lists [Some (default (Many []) (od_get d k)); Some mark]))
  end.

(** The marks of a slot that may be absent. *)
Definition marks_at {K} `{EqDecision K} (d : list (K * cell)) (k : K) : list Mark :=
  from_option _force_iter [] (od_get d k).

(** The special marks [prepare] concretizes: those of the map, then those
    of the sequence. *)
Definition all_specials (h : heap) (self : nat) (seq_data : SeqData)
    : list (nat * Mark) :=
  set_update (default [] (special_of h self)) (default [] (seq_special seq_data)).

(** The index function of the specification's example:
    [index(tick, len) = tick % len]. *)
Definition tick_mod_len (tick len : Z) : result sindex :=
  if len =? 0 then Raise ZeroDivisionError else Ok (SIdx (tick mod len)).

Definition blink_mark : Mark :=
  mkMark (Some [("effects", VInt 1)]) None None None (Some tick_mod_len).

Definition red_mark : Mark :=
  mkMark (Some [("color", VColor "red")]) None None None None.

Definition blue_mark : Mark :=
  mkMark (Some [("color", VColor "blue")]) None None None None.

(** A plane of 10 by 5 (location 0) and its map (location 1): a mark at
    the right border given from the far edge, one at the same cell given
    from the near edge, and one special mark. *)
Definition demo_setup : M heap nat :=
  (let* tp := alloc (HText (10, 5)) in
   let* mm := MarkMap.new (Some tp) in
   MarkMap.__setitem__ mm (MarkMap.IPos (CInt (-1), CInt 0)) 1 (One red_mark) ;;
   MarkMap.__setitem__ mm (MarkMap.IPos (CInt 9, CInt 0)) 2 (One blue_mark) ;;
   MarkMap.__setitem__ mm MarkMap.ISpecial 3 (One blink_mark) ;;
   mret mm)%py.

Definition demo_heap : heap := (demo_setup []).2.
Definition demo_map : nat := 1.
Definition demo_plane : nat := 0.

(** The marks of the relative entries that resolve to [q] on a plane of
    the given size, in the order of the entries. *)
Definition resolved_marks (size : Z * Z) (rd : list (mkey * cell)) (q : mkey)
    : list Mark :=
  flat_map (fun item : mkey * cell =>
              if decide (concrete_key item.1 size = q)
              then _force_iter item.2 else []) rd.

(** The plane at [tp] gets a new size. *)
Definition resize (h : heap) (tp : nat) (size : Z * Z) : heap :=
  <[tp := HText size]> h.

(** The special mark [mk] is filed under the key [k] of a concrete-special
    dictionary. *)
Definition concretized_at (C : list (sindex * list Mark)) (mk : Mark)
    (k : sindex) : Prop :=
  exists l, od_get C k = Some l ∧ mk ∈ l.

(** [index] of [x] returns [k] for this tick and length. *)
Definition files_under (tk len : Z) (x : Mark) (k : sindex) : Prop :=
  exists f, index x = Some f ∧ f tk len = Ok k.

(** A key as [__setitem__] stores it: on each axis a coordinate from the
    near edge, not negative, or an offset from the far edge of that axis. *)
Definition stored_spelling (k : mkey) : Prop :=
  match k.1 with
  | CInt n => 0 <= n
  | CRel WIDTH _ => True
  | _ => False
  end
  ∧ match k.2 with
    | CInt n => 0 <= n
    | CRel HEIGHT _ => True
    | _ => False
    end.

Definition slot_truthy (d : list (mkey * cell)) (k : mkey) : bool :=
  from_option cell_truthy false (od_get d k).

(** The rendering copy [prepare] builds from a well-formed map. *)
Definition prepared_copy (h : list hobj) (m : MarkMapObj) (seq_data : SeqData)
    (tk : Z) (text : list string) (ctx : option nat) (ready : bool) : MarkMapObj :=
  mkMarkMap (length h + 2) (relative_data m) tk seq_data (length h + 1)
    (length h + 3) (text_plane m) ready (Some text) ctx.


(** ** Sequences on a small plane *)

(** A stand-in for the colour collaborator: a colour keeps its name, a
    reserved value stays itself. *)
Definition Color_model (v : tokval) : result pyval :=
  match v with
  | TStr s => Ok (VColor (str s))
  | TSpecial c => Ok (VSpecial c)
  | TNone => Raise TypeError
  end.

Definition Effects_model (name : string) : option Z :=
  if decide (name = "bold") then Some 1
  else if decide (name = "blink") then Some 4
  else None.


(** The depth of calls the examples run with. *)
Definition demo_depth : nat := 8.

(** A plane of 20 by 3 whose owner context has nothing set. *)
Definition demo_world : TextRender.world :=
  (TextRender._build_plane (20, 3) (Context.mk ∅ []) ∅ ∅).2.

Definition demo_tokenize (raw : string) : result StyledSequence.t :=
  TextRender.tokenize Color_model Effects_model (fun _ => Ok false)
    (fun _ => Raise AttributeError) demo_world raw (0, 0).

(** The state in which a sequence made from [raw] starts to render on the
    demo plane. *)
Definition demo_rstate (raw : string) : result StyledSequence.rstate :=
  (let? s := demo_tokenize raw in
   Ok (StyledSequence.mkR (TextRender.objects demo_world)
         (TextRender.text demo_world) s ∅))%py.

(** What one triple of the iteration shows of the context. *)
Definition colours_of (values : string * Context.t * (Z * Z))
    : string * result pyval * result pyval * result pyval :=
  (values.1.1,
   Context.getattr values.1.2 "color",
   Context.getattr values.1.2 "background",
   Context.getattr values.1.2 "foreground").

(** The markup [raw] iterated on the demo plane: for every character the
    colour, the background and the attribute [foreground] in force when the
    character is handed out; and the state the iteration leaves. *)
Definition iterate_markup (raw : string)
    : result (list (string * result pyval * result pyval * result pyval)
              * StyledSequence.rstate) :=
  (let? r := demo_rstate raw in
   match (mbind StyledSequence._prepare_context (fun _ =>
            StyledSequence.__iter__ demo_depth
              (fun values => mret (colours_of values)))) r with
   | (Ok out, r') => Ok (out, r')
   | (Raise e, _) => Raise e
   end)%py.

(** What the live context holds under [key] after a pop that found
    [stack] and left [stack']: the value of the new top; nothing new when
    there was nothing to pop or when nothing is left. *)
Definition after_pop (c : Context.t) (key : string)
    (stack stack' : list (pyval * origin)) : Context.t :=
  match stack, reverse stack' with
  | _ :: _, top :: _ => Context.setattr c key top.1
  | _, _ => c
  end.

(** A sequence in the middle of a rendering: the colour was pushed by a
    mark of the sequence and then by a mark of the plane. *)
Definition two_origins : StyledSequence.t :=
  StyledSequence.mk ["a"; "b"] (mkSeqData [] None) (Some 0)
    (Context.mk {[ "color" := VColor "red" ]} []) true (0, 0) (0, 0) 0
    (Some {[ "color" := [(VSpecial DEFAULT_FG, Original);
                         (VColor "blue", Sequence);
                         (VColor "red", Plane)] ]})
    None (Some []) None [].

Definition no_env : StyledSequence.env := StyledSequence.mkEnv [] ∅.

(** The cases in which [_process_to] does not start over. *)
Definition sequential (s : StyledSequence.t) (index : Z) : Prop :=
  (StyledSequence._last_index_processed s = None ∧ index = 0)
  ∨ StyledSequence._last_index_processed s = Some (index - 1).

(** The sequence of the plain text "ab" on the demo plane, suspended at the
    first [yield] of its iteration: context prepared, iteration entered, the
    first character handed out. *)
Definition paused_after_first : result unit * StyledSequence.rstate :=
  match demo_rstate "ab" with
  | Ok r =>
      (mbind StyledSequence._prepare_context (fun _ =>
       mbind StyledSequence._enter_iteration (fun _ =>
       mbind (StyledSequence.iter_round demo_depth 0 "a") (fun _ =>
       mret tt)))) r
  | Raise e =>
      (Raise e,
       StyledSequence.mkR [] (TextRender.text demo_world)
         (StyledSequence.__init__ ∅ [] (mkSeqData [] None) false None) ∅)
  end.

Definition env_of (r : StyledSequence.rstate) : StyledSequence.env :=
  StyledSequence.mkEnv (StyledSequence.r_heap r)
    (Text.transformers_map (StyledSequence.r_text r)).

(** A plane whose owner context carries an empty list of pre-transformers
    and whose transformer library knows two names. *)
Definition two_transformers : gmap string Transformer :=
  {[ "up" := mkTransformer "up" None; "low" := mkTransformer "low" None ]}.

Definition transformer_world : TextRender.world :=
  (TextRender._build_plane (20, 3)
     (Context.mk {[ "pretransformers" := VContainer [] ]} [])
     two_transformers ∅).2.

(** Hand-made marks at offset 0: a closing transformer tag with nothing to
    close, then two opening ones. *)
Definition transformer_marks : SeqData :=
  mkSeqData
    [(0, Many [ mkMark None (Some ["pretransformer"]) None None None;
                mkMark (Some [("pretransformer", VStr "up")]) None None None None;
                mkMark (Some [("pretransformer", VStr "low")]) None None None None ])]
    None.

(** That sequence with its context prepared and its iteration entered,
    before any character is processed. *)
Definition transformers_entered : result unit * StyledSequence.rstate :=
  (mbind StyledSequence._prepare_context (fun _ => StyledSequence._enter_iteration))
    (StyledSequence.mkR (TextRender.objects transformer_world)
       (TextRender.text transformer_world)
       (StyledSequence.__init__ ∅ ["a"; "b"] transformer_marks true (Some (0, 0)))
       ∅).

(** The names of the transformers a container holds. *)
Definition names_in (s : StyledSequence.t) (v : result pyval) : list string :=
  match v with
  | Ok (VContainer items) =>
      omap (fun x => match x with
                     | TLocal loc =>
                         (fun o => tr_name (tr_base o))
                           <$> StyledSequence.transformers s !! loc
                     | TExternal name => Some name
                     end) items
  | _ => []
  end.

(** ** What a plane retains *)


(** A computation that leaves [proj] of the state as it found it, on
    every way out. *)
Definition preserves {S X A} (proj : S -> X) (c : M S A) : Prop :=
  forall s, proj (c s).2 = proj s.







(** * Lemmas *)

(** ** Ordered dictionaries *)

Section ODictFacts.
Context {K V : Type} `{EqDecision K}.
Implicit Types (d : list (K * V)) (k q : K) (v : V).

Lemma od_get_set d k v q :
  od_get (od_set d k v) q = if decide (q = k) then Some v else od_get d q.
Proof.
  induction d as [| [k' v'] d IH]; simpl.
  - by destruct (decide (q = k)).
  - destruct (decide (k = k')) as [-> | Hne]; simpl.
    + by destruct (decide (q = k')).
    + destruct (decide (q = k')) as [-> | Hq].
      * destruct (decide (k' = k)); [congruence | done].
      * apply IH.
Qed.

Lemma od_get_set_eq d k v : od_get (od_set d k v) k = Some v.
Proof. rewrite od_get_set. by destruct (decide (k = k)). Qed.

Lemma od_get_set_ne d k v q : q ≠ k -> od_get (od_set d k v) q = od_get d q.
Proof. intros. rewrite od_get_set. by destruct (decide (q = k)). Qed.

Lemma od_get_del_ne d k q : q ≠ k -> od_get (od_del d k) q = od_get d q.
Proof.
  intros Hne. induction d as [| [k' v'] d IH]; simpl; [done |].
  destruct (decide (k = k')) as [<- | Hk]; simpl.
  - destruct (decide (q = k)); [congruence | done].
  - destruct (decide (q = k')); [done | apply IH].
Qed.

Lemma od_get_None d k : od_get d k = None <-> k ∉ od_keys d.
Proof.
  unfold od_keys. induction d as [| [k' v'] d IH]; simpl.
  - split; [intros _; apply not_elem_of_nil | done].
  - rewrite not_elem_of_cons. destruct (decide (k = k')) as [-> | Hne].
    + split; [done | intros [? _]; done].
    + rewrite IH. tauto.
Qed.

Lemma od_get_del_eq d k : NoDup (od_keys d) -> od_get (od_del d k) k = None.
Proof.
  unfold od_keys. induction d as [| [k' v'] d IH]; simpl; [done |].
  intros Hnd. apply NoDup_cons in Hnd as [Hnotin Hnd].
  destruct (decide (k = k')) as [-> | Hne]; simpl.
  - by apply od_get_None.
  - destruct (decide (k = k')); [done | by apply IH].
Qed.

Lemma od_keys_del_subseteq d k : od_keys (od_del d k) ⊆ od_keys d.
Proof.
  unfold od_keys. intros x. induction d as [| [k' v'] d IH]; simpl; [done |].
  destruct (decide (k = k')); simpl.
  - intros Hx. by apply elem_of_cons; right.
  - rewrite !elem_of_cons. intros [-> | Hx]; [by left | right; by apply IH].
Qed.

Lemma od_del_NoDup d k : NoDup (od_keys d) -> NoDup (od_keys (od_del d k)).
Proof.
  unfold od_keys. induction d as [| [k' v'] d IH]; simpl; [done |].
  intros Hnd. apply NoDup_cons in Hnd as [Hnotin Hnd].
  destruct (decide (k = k')); simpl; [done |].
  apply NoDup_cons. split; [| by apply IH].
  intros Hin. apply Hnotin. by apply (od_keys_del_subseteq d k).
Qed.

Lemma od_set_NoDup d k v : NoDup (od_keys d) -> NoDup (od_keys (od_set d k v)).
Proof.
  unfold od_keys. induction d as [| [k' v'] d IH]; simpl.
  - intros _. apply NoDup_singleton.
  - intros Hnd. apply NoDup_cons in Hnd as [Hnotin Hnd].
    destruct (decide (k = k')) as [-> | Hne]; simpl.
    + by apply NoDup_cons.
    + apply NoDup_cons. split; [| by apply IH].
      apply od_get_None. rewrite od_get_set_ne by congruence.
      by apply od_get_None.
Qed.
End ODictFacts.

(** * Properties *)

(** ** The character grid *)

Section GridFacts.
Variable EMPTY : string.
Import CharPlaneData.

Lemma out_of_range_false d pos : out_of_range d pos = false <-> in_bounds d pos.
Proof. unfold out_of_range, in_bounds. destruct pos as [x y]; simpl. lia. Qed.

Lemma out_of_range_true d pos : out_of_range d pos = true <-> ¬ in_bounds d pos.
Proof. unfold out_of_range, in_bounds. destruct pos as [x y]; simpl. lia. Qed.

Lemma getitem_in d pos :
  in_bounds d pos -> __getitem__ EMPTY d pos = Ok (default EMPTY (cells d !! pos)).
Proof.
  intros H. apply out_of_range_false in H. unfold __getitem__. by rewrite H.
Qed.

Lemma getitem_out d pos :
  ¬ in_bounds d pos -> __getitem__ EMPTY d pos = Raise IndexError.
Proof.
  intros H. apply out_of_range_true in H. unfold __getitem__. by rewrite H.
Qed.

Lemma setitem_in d pos v :
  in_bounds d pos ->
  __setitem__ d pos v = Ok (mk (width d) (height d) (<[pos := v]> (cells d))).
Proof.
  intros H. apply out_of_range_false in H. unfold __setitem__. by rewrite H.
Qed.

Lemma setitem_out d pos v :
  ¬ in_bounds d pos -> __setitem__ d pos v = Raise IndexError.
Proof.
  intros H. apply out_of_range_true in H. unfold __setitem__. by rewrite H.
Qed.
End GridFacts.

(** C10. A cell inside the grid that holds nothing (never written, or
    deleted) reads as [EMPTY]; a position outside the grid makes the read
    raise [IndexError]; a read raises exactly when a write to the same
    position does. *)
Theorem read_is_bounds_checked (EMPTY : string) (d : CharPlaneData.t) (pos : Z * Z) :
  (in_bounds d pos -> CharPlaneData.cells d !! pos = None ->
   CharPlaneData.__getitem__ EMPTY d pos = Ok EMPTY)
  ∧ (in_bounds d pos -> forall d', CharPlaneData.__delitem__ d pos = Ok d' ->
     CharPlaneData.__getitem__ EMPTY d' pos = Ok EMPTY)
  ∧ (in_bounds d pos ->
     CharPlaneData.__getitem__ EMPTY (CharPlaneData.clear d) pos = Ok EMPTY)
  ∧ (¬ in_bounds d pos -> CharPlaneData.__getitem__ EMPTY d pos = Raise IndexError)
  ∧ (forall v, CharPlaneData.__getitem__ EMPTY d pos = Raise IndexError
               <-> CharPlaneData.__setitem__ d pos v = Raise IndexError).
Proof.
  repeat split.
  - intros Hin Hnone. rewrite getitem_in by done. by rewrite Hnone.
  - intros Hin d' Hdel. unfold CharPlaneData.__delitem__ in Hdel.
    destruct (CharPlaneData.cells d !! pos); [| done].
    injection Hdel as <-. rewrite getitem_in by done. simpl.
    by rewrite lookup_delete_eq.
  - intros Hin. rewrite getitem_in by done. simpl. by rewrite lookup_empty.
  - apply getitem_out.
  - unfold CharPlaneData.__getitem__, CharPlaneData.__setitem__.
    by destruct (CharPlaneData.out_of_range d pos).
  - unfold CharPlaneData.__getitem__, CharPlaneData.__setitem__.
    by destruct (CharPlaneData.out_of_range d pos).
Qed.

Lemma read_is_bounds_checked_witness :
  CharPlaneData.__getitem__ "." grid_3x2 (2, 0) = Ok "."
  ∧ CharPlaneData.__getitem__ "." grid_3x2 (3, 0) = Raise IndexError.
Proof.
  split.
  - destruct (read_is_bounds_checked "." grid_3x2 (2, 0)) as (H & _).
    apply H.
    + unfold in_bounds; simpl; lia.
    + reflexivity.
  - destruct (read_is_bounds_checked "." grid_3x2 (3, 0)) as (_ & _ & _ & H & _).
    apply H. unfold in_bounds; simpl; lia.
Defined.

(** C7. Outside the grid a direct write raises [IndexError], while
    [_char_at], the write of the rendering path, returns normally and
    changes nothing; inside the grid both store the character. *)
Theorem write_out_of_bounds (EMPTY : string) (t : Text.t) (char : string) (pos : Z * Z) :
  (¬ in_bounds (Text.plane t) pos ->
   CharPlaneData.__setitem__ (Text.plane t) pos char = Raise IndexError
   ∧ Text._char_at EMPTY char pos t = (Ok tt, t))
  ∧ (in_bounds (Text.plane t) pos ->
     (exists d', CharPlaneData.__setitem__ (Text.plane t) pos char = Ok d'
                 ∧ CharPlaneData.cells d' !! pos = Some char)
     ∧ (exists t', Text._char_at EMPTY char pos t = (Ok tt, t')
                   ∧ CharPlaneData.cells (Text.plane t') !! pos = Some char
                   ∧ Text.last_pos t' = Some pos)).
Proof.
  split.
  - intros Hout. split; [by apply setitem_out |].
    unfold Text._char_at, mbind, mget. by rewrite setitem_out.
  - intros Hin. split.
    + eexists. split; [by apply setitem_in |]. simpl. by rewrite lookup_insert_eq.
    + unfold Text._char_at, mbind, mget. rewrite setitem_in by done.
      unfold Text.modify, Text.blit, mbind, mget, mlift. simpl.
      rewrite getitem_in by done. simpl. rewrite lookup_insert_eq. simpl.
      rewrite andb_false_r. eexists. split; [reflexivity |].
      simpl. by rewrite lookup_insert_eq.
Qed.

Lemma write_out_of_bounds_witness :
  Text._char_at "." "a" (5, 0) text_3x2 = (Ok tt, text_3x2)
  ∧ exists t', Text._char_at "." "a" (0, 1) text_3x2 = (Ok tt, t')
               ∧ CharPlaneData.cells (Text.plane t') !! (0, 1) = Some "a".
Proof.
  split.
  - destruct (write_out_of_bounds "." text_3x2 "a" (5, 0)) as [H _].
    apply H. unfold in_bounds; simpl; lia.
  - destruct (write_out_of_bounds "." text_3x2 "a" (0, 1)) as [_ H].
    assert (Hin : in_bounds (Text.plane text_3x2) (0, 1))
      by (unfold in_bounds; simpl; lia).
    destruct (H Hin) as [_ (t' & H1 & H2 & _)].
    exists t'. split; assumption.
Defined.

(** ** The store *)

Section HeapFacts.
Implicit Types (h : heap) (ext : list hobj).

Lemma lookup_ext h ext k : (h ++ ext) !! (length h + k)%nat = ext !! k.
Proof. rewrite lookup_app_r by lia. f_equal. lia. Qed.

Lemma insert_ext h ext k o :
  <[(length h + k)%nat := o]> (h ++ ext) = h ++ <[k := o]> ext.
Proof.
  rewrite insert_app_r_alt by lia. do 2 f_equal. lia.
Qed.

Lemma lookup_old h ext l o : h !! l = Some o -> (h ++ ext) !! l = Some o.
Proof. apply lookup_app_l_Some. Qed.

Lemma mbind_eq {S A B} (c : M S A) (k : A -> M S B) s a s' :
  c s = (Ok a, s') -> mbind c k s = k a s'.
Proof. unfold mbind. by intros ->. Qed.

Lemma mbind_raise {S A B} (c : M S A) (k : A -> M S B) s e s' :
  c s = (Raise e, s') -> mbind c k s = (Raise e, s').
Proof. unfold mbind. by intros ->. Qed.

Lemma alloc_eq o h : alloc o h = (Ok (length h), h ++ [o]).
Proof. reflexivity. Qed.

Lemma alloc_ext o h ext :
  alloc o (h ++ ext) = (Ok (length h + length ext)%nat, h ++ (ext ++ [o])).
Proof. unfold alloc. by rewrite length_app, app_assoc. Qed.

Lemma load_eq l h o : h !! l = Some o -> load l h = (Ok o, h).
Proof. unfold load. by intros ->. Qed.

Lemma load_markmap_eq l h m :
  h !! l = Some (HMarkMap m) -> load_markmap l h = (Ok m, h).
Proof. intros H. unfold load_markmap. by rewrite (mbind_eq _ _ _ _ _ (load_eq _ _ _ H)). Qed.

Lemma load_dict_eq l h d :
  h !! l = Some (HDict d) -> load_dict l h = (Ok d, h).
Proof. intros H. unfold load_dict. by rewrite (mbind_eq _ _ _ _ _ (load_eq _ _ _ H)). Qed.

Lemma load_set_eq l h s :
  h !! l = Some (HSet s) -> load_set l h = (Ok s, h).
Proof. intros H. unfold load_set. by rewrite (mbind_eq _ _ _ _ _ (load_eq _ _ _ H)). Qed.

Lemma load_concrete_eq l h d :
  h !! l = Some (HConcrete d) -> load_concrete l h = (Ok d, h).
Proof. intros H. unfold load_concrete. by rewrite (mbind_eq _ _ _ _ _ (load_eq _ _ _ H)). Qed.

Lemma plane_size_eq tp h size :
  h !! tp = Some (HText size) -> plane_size (Some tp) h = (Ok size, h).
Proof. intros H. unfold plane_size. by rewrite (mbind_eq _ _ _ _ _ (load_eq _ _ _ H)). Qed.

Lemma setattr_eq l h m f :
  h !! l = Some (HMarkMap m) ->
  MarkMap.setattr l f h = (Ok tt, <[l := HMarkMap (f m)]> h).
Proof.
  intros H. unfold MarkMap.setattr.
  by rewrite (mbind_eq _ _ _ _ _ (load_markmap_eq _ _ _ H)).
Qed.

Lemma setattr_ext h ext k m f :
  ext !! k = Some (HMarkMap m) ->
  MarkMap.setattr (length h + k) f (h ++ ext)
  = (Ok tt, h ++ <[k := HMarkMap (f m)]> ext).
Proof.
  intros H. rewrite (setattr_eq _ _ m) by (by rewrite lookup_ext).
  by rewrite insert_ext.
Qed.
End HeapFacts.

(** ** The two loops of [prepare] *)

Lemma special_loop_run (m : MarkMapObj) (cs : nat) (text : list string) :
  parsed_text m = Some text ->
  forall sp d h,
    h !! cs = Some (HConcrete d) ->
    mfor sp (fun x =>
      let mark := x.2 in
      match index mark, parsed_text m with
      | Some f, Some text =>
          mbind (mlift (f (tick m) (Z.of_nat (length text)))) (fun idx =>
          mbind (load_concrete cs) (fun d =>
          store cs (HConcrete (od_set d idx (default [] (od_get d idx) ++ [mark])))))
      | _, _ => mraise AttributeError
      end) h
    = let '(r, d') := special_loop (tick m) (Z.of_nat (length text)) sp d in
      (r, <[cs := HConcrete d']> h).
Proof.
  intros Hm sp. rewrite Hm.
  induction sp as [| x sp IH]; intros d h Hcs; cbn [mfor special_loop].
  - unfold mret. by rewrite list_insert_id.
  - unfold mbind at 1. cbv beta zeta.
    destruct (index x.2) as [f |].
    + unfold mbind at 1, mlift at 1.
      destruct (f (tick m) (Z.of_nat (length text))) as [idx | e].
      * unfold mbind at 1. rewrite (load_concrete_eq _ _ _ Hcs).
        unfold store at 1.
        rewrite IH with (d := od_set d idx (default [] (od_get d idx) ++ [x.2])).
        -- destruct (special_loop _ _ sp _) as [r d'].
           by rewrite list_insert_insert_eq.
        -- apply list_lookup_insert_eq. by eapply lookup_lt_Some.
      * by rewrite list_insert_id.
    + unfold mraise. by rewrite list_insert_id.
Qed.

Lemma relative_loop_run (dl : nat) (size : Z * Z) :
  forall rd d h,
    h !! dl = Some (HDict d) ->
    mfor rd (fun item : mkey * cell =>
      let '(index, mark) := item in
      match get_relative_variants index size with
      | concrete_index :: _ =>
          mbind (load_dict dl) (fun d =>
          let new_mark := default (Many []) (od_get d concrete_index) in
          let new_mark := _merge_as_lists [Some new_mark; Some mark] in
          store dl (HDict (od_set d concrete_index new_mark)))
      | [] => mraise ValueError
      end) h
    = (Ok tt, <[dl := HDict (relative_loop size rd d)]> h).
Proof.
  induction rd as [| [index mark] rd IH]; intros d h Hd; cbn [mfor relative_loop].
  - unfold mret. by rewrite list_insert_id.
  - cbn [get_relative_variants]. unfold mbind at 1. cbv beta zeta.
    unfold mbind at 1. rewrite (load_dict_eq _ _ _ Hd). unfold store at 1.
    erewrite IH.
    + by rewrite list_insert_insert_eq.
    + apply list_lookup_insert_eq. by eapply lookup_lt_Some.
Qed.

(** ** [prepare], run on a well-formed map *)

Ltac run_with lem := erewrite mbind_eq; [| lem].

Lemma alloc_eq0 o (h : list hobj) :
  alloc o h = (Ok (length h + 0)%nat, h ++ ([] ++ [o])).
Proof. unfold alloc. by rewrite Nat.add_0_r. Qed.

Lemma concretize_special_marks_run (h : list hobj) m0 sp d0 text :
  parsed_text m0 = Some text ->
  special m0 = (length h + 1)%nat ->
  let ext := [HMarkMap m0; HSet sp; HDict d0] in
  MarkMap.concretize_special_marks (length h + 0) (h ++ ext)
  = let '(r, C) := special_loop (tick m0) (Z.of_nat (length text)) sp [] in
    (r, h ++ [HMarkMap (MarkMap.set_concrete_special (length h + 3) m0);
              HSet sp; HDict d0; HConcrete C]).
Proof.
  intros Htext Hsp ext. unfold MarkMap.concretize_special_marks.
  run_with ltac:(apply alloc_ext). cbn [length app ext].
  run_with ltac:(apply setattr_ext; reflexivity). cbn [list_insert insert].
  run_with ltac:(apply load_markmap_eq; rewrite lookup_ext; reflexivity).
  cbn [special MarkMap.set_concrete_special]. rewrite Hsp.
  run_with ltac:(apply load_set_eq; rewrite lookup_ext; reflexivity).
  rewrite (special_loop_run _ _ text) with (d := []).
  - cbn [tick MarkMap.set_concrete_special].
    destruct (special_loop _ _ sp []) as [r C].
    by rewrite insert_ext.
  - cbn. exact Htext.
  - rewrite lookup_ext. reflexivity.
Qed.

Lemma concretize_relative_marks_run (h : list hobj) m0 S0 d0 C0 :
  data m0 = (length h + 2)%nat ->
  match text_plane m0 with
  | Some tp => exists size rd,
      h !! tp = Some (HText size) ∧ h !! relative_data m0 = Some (HDict rd)
  | None => True
  end ->
  let ext := [HMarkMap m0; HSet S0; HDict d0; HConcrete C0] in
  MarkMap.concretize_relative_marks (length h + 0) (h ++ ext)
  = (Ok tt,
     h ++ [HMarkMap m0; HSet S0;
           HDict (match text_plane m0 with
                  | Some tp =>
                      relative_loop (default (0, 0) (read_size h tp))
                        (default [] (read_dict h (relative_data m0))) d0
                  | None => d0
                  end);
           HConcrete C0]).
Proof.
  intros Hdata Hwf ext. unfold MarkMap.concretize_relative_marks.
  run_with ltac:(apply load_markmap_eq; rewrite lookup_ext; reflexivity).
  destruct (text_plane m0) as [tp |]; [| reflexivity].
  destruct Hwf as (size & rd & Htp & Hrd).
  run_with ltac:(apply plane_size_eq; apply lookup_old; exact Htp).
  run_with ltac:(apply load_dict_eq; apply lookup_old; exact Hrd).
  rewrite Hdata. rewrite relative_loop_run with (d := d0).
  - rewrite insert_ext. unfold read_size, read_dict. rewrite Htp, Hrd. reflexivity.
  - rewrite lookup_ext. reflexivity.
Qed.

Lemma prepare_run (h : list hobj) self m d sp seq_data tk text ctx :
  h !! self = Some (HMarkMap m) ->
  h !! data m = Some (HDict d) ->
  h !! special m = Some (HSet sp) ->
  match text_plane m with
  | Some tp => exists size rd,
      h !! tp = Some (HText size) ∧ h !! relative_data m = Some (HDict rd)
  | None => True
  end ->
  let S := set_update sp (default [] (seq_special seq_data)) in
  MarkMap.prepare self seq_data tk text ctx h
  = let '(r, C) := special_loop tk (Z.of_nat (length text)) S [] in
    match r with
    | Raise e =>
        (Raise e,
         h ++ [HMarkMap (prepared_copy h m seq_data tk text ctx (is_rendering_copy m));
               HSet S; HDict d; HConcrete C])
    | Ok _ =>
        (Ok (length h),
         h ++ [HMarkMap (prepared_copy h m seq_data tk text ctx true);
               HSet S;
               HDict (match text_plane m with
                      | Some tp =>
                          relative_loop (default (0, 0) (read_size h tp))
                            (default [] (read_dict h (relative_data m))) d
                      | None => d
                      end);
               HConcrete C])
    end.
Proof.
  intros Hself Hd Hsp Hwf S. unfold MarkMap.prepare.
  run_with ltac:(apply load_markmap_eq; exact Hself).
  run_with ltac:(apply alloc_eq0). cbn [app].
  run_with ltac:(apply setattr_ext; reflexivity). cbn [list_insert insert].
  run_with ltac:(apply setattr_ext; reflexivity). cbn [list_insert insert].
  run_with ltac:(apply setattr_ext; reflexivity). cbn [list_insert insert].
  run_with ltac:(apply setattr_ext; reflexivity). cbn [list_insert insert].
  run_with ltac:(apply load_set_eq; apply lookup_old; exact Hsp).
  run_with ltac:(apply alloc_ext). cbn [length app].
  run_with ltac:(apply setattr_ext; reflexivity). cbn [list_insert insert].
  run_with ltac:(apply load_dict_eq; apply lookup_old; exact Hd).
  run_with ltac:(apply alloc_ext). cbn [length app].
  run_with ltac:(apply setattr_ext; reflexivity). cbn [list_insert insert].
  erewrite mbind_eq with (a := tt)
    (s' := h ++ [HMarkMap _; HSet S; HDict d]).
  2:{ subst S. destruct (seq_special seq_data) as [xs |]; cbn [default].
      - run_with ltac:(apply load_set_eq; rewrite lookup_ext; reflexivity).
        unfold store. rewrite insert_ext. reflexivity.
      - reflexivity. }
  unfold mbind at 1. rewrite (concretize_special_marks_run h _ S d text); try reflexivity.
  cbn [tick MarkMap.set_data MarkMap.set_special MarkMap.set_parsed_text
       MarkMap.set_context MarkMap.set_seq_data MarkMap.set_tick].
  destruct (special_loop tk (Z.of_nat (length text)) S []) as [[[] | e] C].
  - unfold mbind at 1. rewrite concretize_relative_marks_run.
    + run_with ltac:(apply setattr_ext; reflexivity).
      unfold mret, prepared_copy. cbn. rewrite Nat.add_0_r. reflexivity.
    + reflexivity.
    + cbn. exact Hwf.
  - unfold prepared_copy. cbn. reflexivity.
Qed.

Lemma special_loop_returns tk len sp :
  specials_return sp tk len ->
  forall d, exists C, special_loop tk len sp d = (Ok tt, C).
Proof.
  induction 1 as [| x sp (f & idx & Hf & Hidx) _ IH]; intros d; simpl.
  - by eexists.
  - rewrite Hf, Hidx. apply IH.
Qed.

Lemma read_old (h ext : list hobj) l o :
  h !! l = Some o -> (h ++ ext) !! l = h !! l.
Proof. intros H. rewrite H. by apply lookup_app_l_Some. Qed.

(** [prepare] on a well-formed map: what it returns and the store it
    leaves, written out. *)
Lemma prepare_shape (h : list hobj) (self : nat)
    (seq_data : SeqData) (tk : Z) (text : list string) (ctx : option nat) :
  wf_markmap h self ->
  specials_return (all_specials h self seq_data) tk (Z.of_nat (length text)) ->
  exists m d rd sp C,
    h !! self = Some (HMarkMap m)
    ∧ h !! data m = Some (HDict d)
    ∧ h !! relative_data m = Some (HDict rd)
    ∧ h !! special m = Some (HSet sp)
    ∧ match text_plane m with
      | Some tp => exists size, h !! tp = Some (HText size)
      | None => True
      end
    ∧ all_specials h self seq_data
      = set_update sp (default [] (seq_special seq_data))
    ∧ special_loop tk (Z.of_nat (length text))
        (all_specials h self seq_data) [] = (Ok tt, C)
    ∧ MarkMap.prepare self seq_data tk text ctx h
      = (Ok (length h),
         h ++ [HMarkMap (prepared_copy h m seq_data tk text ctx true);
               HSet (all_specials h self seq_data);
               HDict (match text_plane m with
                      | Some tp =>
                          relative_loop (default (0, 0) (read_size h tp))
                            (default [] (read_dict h (relative_data m))) d
                      | None => d
                      end);
               HConcrete C]).
Proof.
  intros (m & d & rd & sp & Hself & Hd & Hrd & Hsp & Hplane) Hret.
  assert (Hsp_of : special_of h self = Some sp).
  { unfold special_of, read_markmap, read_set. rewrite Hself. simpl. by rewrite Hsp. }
  assert (Hall : all_specials h self seq_data
                 = set_update sp (default [] (seq_special seq_data))).
  { unfold all_specials. by rewrite Hsp_of. }
  destruct (special_loop_returns _ _ _ Hret []) as [C HC].
  exists m, d, rd, sp, C. repeat (split; [assumption |]).
  pose proof (prepare_run h self m d sp seq_data tk text ctx Hself Hd Hsp) as Hrun.
  cbv zeta in Hrun. rewrite <- Hall, HC in Hrun. apply Hrun.
  destruct (text_plane m) as [tp |]; [| done].
  destruct Hplane as [size Hsize]. by exists size, rd.
Qed.

(** The rendering copy: its own data, with the relative marks resolved, and
    its own concrete-special dictionary. *)
Lemma prepare_copy (h : list hobj) (self : nat)
    (seq_data : SeqData) (tk : Z) (text : list string) (ctx : option nat) :
  wf_markmap h self ->
  specials_return (all_specials h self seq_data) tk (Z.of_nat (length text)) ->
  exists inst h' mi C,
    MarkMap.prepare self seq_data tk text ctx h = (Ok inst, h')
    ∧ read_markmap h' inst = Some mi
    ∧ is_rendering_copy mi = true
    ∧ special_loop tk (Z.of_nat (length text))
        (all_specials h self seq_data) [] = (Ok tt, C)
    ∧ concrete_special_of h' inst = Some C
    ∧ data_of h' inst
      = (d ← data_of h self;
         Some (match size_of h self, relative_data_of h self with
               | Some size, Some rd => relative_loop size rd d
               | _, _ => d
               end)).
Proof.
  intros Hwf Hret.
  destruct (prepare_shape h self seq_data tk text ctx Hwf Hret)
    as (m & d & rd & sp & C & Hself & Hd & Hrd & Hsp & Hplane & Hall & HC & Hrun).
  set (ext := [HMarkMap _; _; _; _]) in Hrun.
  exists (length h), (h ++ ext), (prepared_copy h m seq_data tk text ctx true), C.
  assert (Hext : forall k, (h ++ ext) !! (length h + k)%nat = ext !! k)
    by (intros; apply lookup_ext).
  assert (Hinst : (h ++ ext) !! length h
                  = Some (HMarkMap (prepared_copy h m seq_data tk text ctx true))).
  { rewrite <- (Nat.add_0_r (length h)), Hext. reflexivity. }
  split; [exact Hrun |].
  split; [unfold read_markmap; by rewrite Hinst |].
  split; [reflexivity |]. split; [exact HC |].
  split.
  { unfold concrete_special_of, read_markmap, read_concrete. rewrite Hinst. simpl.
    rewrite Hext. reflexivity. }
  unfold data_of at 1. unfold read_markmap at 1. rewrite Hinst. simpl.
  unfold read_dict at 1. rewrite Hext. simpl.
  unfold data_of, size_of, relative_data_of, read_markmap. rewrite Hself. simpl.
  unfold read_dict at 3. rewrite Hd. simpl. f_equal.
  destruct (text_plane m) as [tp |]; simpl; [| reflexivity].
  destruct Hplane as [size Hsize].
  unfold read_size, read_dict. rewrite Hsize, Hrd. reflexivity.
Qed.

(** C4. [prepare] on a well-formed map returns a rendering copy and leaves
    every object that was in the store as it was: the parent's record, its
    absolute data, its relative data, its set of special marks and its tick
    read the same after the call.  The copy is a new object with a data
    dictionary, a special set and a concrete-special dictionary of its own,
    into which the relative marks are resolved and the special marks
    concretized; it shares the relative data with the parent. *)
Theorem prepare_leaves_parent_unchanged (h : list hobj) (self : nat)
    (seq_data : SeqData) (tk : Z) (text : list string) (ctx : option nat) :
  wf_markmap h self ->
  specials_return (all_specials h self seq_data) tk (Z.of_nat (length text)) ->
  exists inst h' mi,
    MarkMap.prepare self seq_data tk text ctx h = (Ok inst, h')
    ∧ (forall l o, h !! l = Some o -> h' !! l = Some o)
    ∧ read_markmap h' self = read_markmap h self
    ∧ data_of h' self = data_of h self
    ∧ relative_data_of h' self = relative_data_of h self
    ∧ special_of h' self = special_of h self
    ∧ tick_of h' self = tick_of h self
    ∧ h !! inst = None
    ∧ read_markmap h' inst = Some mi
    ∧ is_rendering_copy mi = true
    ∧ h !! data mi = None ∧ h !! special mi = None
    ∧ h !! _concrete_special mi = None
    ∧ (forall m, read_markmap h self = Some m -> relative_data mi = relative_data m)
    ∧ special_of h' inst = Some (all_specials h self seq_data)
    ∧ (exists C, special_loop tk (Z.of_nat (length text))
                   (all_specials h self seq_data) [] = (Ok tt, C)
                 ∧ concrete_special_of h' inst = Some C)
    ∧ data_of h' inst
      = (d ← data_of h self;
         Some (match size_of h self, relative_data_of h self with
               | Some size, Some rd => relative_loop size rd d
               | _, _ => d
               end)).
Proof.
  intros Hwf Hret.
  destruct (prepare_shape h self seq_data tk text ctx Hwf Hret)
    as (m & d & rd & sp & C & Hself & Hd & Hrd & Hsp & Hplane & Hall & HC & Hrun).
  set (ext := [HMarkMap _; _; _; _]) in Hrun.
  exists (length h), (h ++ ext), (prepared_copy h m seq_data tk text ctx true).
  split; [exact Hrun |].
  assert (Hold : forall l o, h !! l = Some o -> (h ++ ext) !! l = Some o)
    by (intros; by apply lookup_app_l_Some).
  assert (Hnew : forall k, h !! (length h + k)%nat = None)
    by (intros; apply lookup_ge_None; lia).
  assert (Hext : forall k, (h ++ ext) !! (length h + k)%nat = ext !! k)
    by (intros; apply lookup_ext).
  assert (Hinst : (h ++ ext) !! length h
                  = Some (HMarkMap (prepared_copy h m seq_data tk text ctx true))).
  { rewrite <- (Nat.add_0_r (length h)), Hext. reflexivity. }
  split; [exact Hold |].
  split; [unfold read_markmap; by rewrite (Hold _ _ Hself), Hself |].
  split.
  { unfold data_of, read_markmap, read_dict.
    rewrite (Hold _ _ Hself), Hself. simpl. by rewrite (Hold _ _ Hd), Hd. }
  split.
  { unfold relative_data_of, read_markmap, read_dict.
    rewrite (Hold _ _ Hself), Hself. simpl. by rewrite (Hold _ _ Hrd), Hrd. }
  split.
  { unfold special_of, read_markmap, read_set.
    rewrite (Hold _ _ Hself), Hself. simpl. by rewrite (Hold _ _ Hsp), Hsp. }
  split; [unfold tick_of, read_markmap; by rewrite (Hold _ _ Hself), Hself |].
  split; [apply lookup_ge_None; lia |].
  split; [unfold read_markmap; by rewrite Hinst |].
  split; [reflexivity |].
  split; [apply Hnew |]. split; [apply Hnew |]. split; [apply Hnew |].
  split.
  { unfold read_markmap. rewrite Hself. by intros ? [= <-]. }
  split.
  { unfold special_of at 1. unfold read_markmap, read_set. rewrite Hinst. simpl.
    rewrite Hext. reflexivity. }
  split.
  { exists C. split; [done |].
    unfold concrete_special_of, read_markmap, read_concrete. rewrite Hinst. simpl.
    rewrite Hext. reflexivity. }
  unfold data_of at 1. unfold read_markmap at 1. rewrite Hinst. simpl.
  unfold read_dict at 1. rewrite Hext. simpl.
  unfold data_of, size_of, relative_data_of, read_markmap. rewrite Hself. simpl.
  unfold read_dict at 3. rewrite Hd. simpl. f_equal.
  destruct (text_plane m) as [tp |]; simpl; [| reflexivity].
  destruct Hplane as [size Hsize].
  unfold read_size, read_dict. rewrite Hsize, Hrd. reflexivity.
Qed.

Lemma prepare_leaves_parent_unchanged_witness :
  exists inst h',
    MarkMap.prepare demo_map (mkSeqData [] None) 3 ["a"; "b"] None demo_heap
    = (Ok inst, h')
    ∧ data_of h' demo_map = data_of demo_heap demo_map
    ∧ special_of h' demo_map = special_of demo_heap demo_map.
Proof.
  destruct (prepare_leaves_parent_unchanged demo_heap demo_map
              (mkSeqData [] None) 3 ["a"; "b"] None)
    as (inst & h' & mi & Hrun & _ & _ & Hdata & _ & Hsp & _).
  - unfold wf_markmap. eexists _, _, _, _. repeat split; try reflexivity.
    simpl. eexists. reflexivity.
  - repeat constructor. eexists _, _. split; reflexivity.
  - exists inst, h'. repeat split; assumption.
Defined.

(** ** Relative marks and the size of the plane *)

Lemma force_merge a b :
  _force_iter (_merge_as_lists [Some a; Some b]) = _force_iter a ++ _force_iter b.
Proof.
  unfold _merge_as_lists. simpl.
  assert (H : (match a with One m => [m] | Many l => l end) = _force_iter a)
    by (by destruct a).
  assert (H' : forall acc, (match b with
                            | One m => acc ++ [m]
                            | Many l => acc ++ l
                            end) = acc ++ _force_iter b)
    by (by destruct b).
  rewrite H', H.
  destruct (_force_iter a ++ _force_iter b) as [| x [| y l]]; reflexivity.
Qed.

(** The marks a position holds after the relative marks were resolved. *)
Lemma relative_loop_marks size rd :
  forall d q,
    marks_at (relative_loop size rd d) q
    = marks_at d q
      ++ flat_map (fun item : mkey * cell =>
                     if decide (concrete_key item.1 size = q)
                     then _force_iter item.2 else []) rd.
Proof.
  induction rd as [| [i c] rd IH]; intros d q; simpl.
  - by rewrite app_nil_r.
  - rewrite IH. unfold marks_at at 1. rewrite od_get_set.
    destruct (decide (concrete_key i size = q)) as [<- | Hne].
    + destruct (decide (concrete_key i size = concrete_key i size)); [| done].
      simpl. rewrite force_merge, <- app_assoc. f_equal.
      unfold marks_at. by destruct (od_get d (concrete_key i size)).
    + destruct (decide (q = concrete_key i size)); [congruence |]. reflexivity.
Qed.

Lemma get_rendering_copy (h : list hobj) inst mi D x y dflt :
  h !! inst = Some (HMarkMap mi) ->
  is_rendering_copy mi = true ->
  h !! data mi = Some (HDict D) ->
  0 <= x -> 0 <= y ->
  MarkMap.get inst (CInt x, CInt y) dflt h
  = (Ok (default dflt (od_get D (CInt x, CInt y))), h).
Proof.
  intros Hinst Hcopy HD Hx Hy. unfold MarkMap.get, MarkMap.__getitem__.
  rewrite (mbind_eq _ _ _ _ _ (load_markmap_eq _ _ _ Hinst)).
  rewrite Hcopy. unfold index_is_relative. simpl.
  destruct (Z.ltb_spec x 0); [lia |]. destruct (Z.ltb_spec y 0); [lia |]. simpl.
  unfold mbind at 1. unfold mret at 1.
  rewrite (mbind_eq _ _ _ _ _ (load_dict_eq _ _ _ HD)).
  destruct (od_get D (CInt x, CInt y)); reflexivity.
Qed.

Lemma lookup_resize (h : list hobj) tp s1 s2 l o :
  h !! tp = Some (HText s1) ->
  h !! l = Some o ->
  (forall s, o ≠ HText s) ->
  resize h tp s2 !! l = Some o.
Proof.
  intros Htp Hl Hne. unfold resize.
  rewrite list_lookup_insert_ne; [done |].
  intros ->. rewrite Htp in Hl. injection Hl as <-. by eapply Hne.
Qed.

Lemma lookup_resize_plane (h : list hobj) tp s1 s2 :
  h !! tp = Some (HText s1) -> resize h tp s2 !! tp = Some (HText s2).
Proof.
  intros Htp. unfold resize. apply list_lookup_insert_eq. by eapply lookup_lt_Some.
Qed.

(** C5. A mark stored at an edge-relative coordinate is resolved by
    [prepare] against the size the plane has when [prepare] is called: after
    the plane went from [size1] to [size2], the rendering copy holds the mark
    at the position computed from [size2], and what it holds at any position
    is what the parent's absolute data holds there followed by the relative
    marks that resolve there under [size2]; the old size plays no part. *)
Theorem relative_marks_follow_plane_size (h : list hobj) (self tp : nat)
    (size1 size2 : Z * Z) (seq_data : SeqData) (tk : Z) (text : list string)
    (ctx : option nat) (m : MarkMapObj) (d rd : list (mkey * cell))
    (idx : mkey) (c : cell) :
  wf_markmap h self ->
  read_markmap h self = Some m ->
  text_plane m = Some tp ->
  h !! tp = Some (HText size1) ->
  data_of h self = Some d ->
  relative_data_of h self = Some rd ->
  od_get rd idx = Some c ->
  specials_return (all_specials h self seq_data) tk (Z.of_nat (length text)) ->
  exists inst h',
    MarkMap.prepare self seq_data tk text ctx (resize h tp size2) = (Ok inst, h')
    ∧ (forall q : Z * Z, 0 <= q.1 -> 0 <= q.2 ->
       exists found,
         MarkMap.get inst (CInt q.1, CInt q.2) (Many []) h' = (Ok found, h')
         ∧ _force_iter found
           = marks_at d (CInt q.1, CInt q.2)
             ++ resolved_marks size2 rd (CInt q.1, CInt q.2))
    ∧ (forall mk, mk ∈ _force_iter c ->
       mk ∈ resolved_marks size2 rd (concrete_key idx size2))
    ∧ (concrete_key idx size1 ≠ concrete_key idx size2 ->
       marks_at d (concrete_key idx size1) = [] ->
       (forall i c', (i, c') ∈ rd -> concrete_key i size2 ≠ concrete_key idx size1) ->
       resolved_marks size2 rd (concrete_key idx size1) = []).
Proof.
  intros Hwf Hm Htp Hsize Hd Hrd Hidx Hret.
  unfold read_markmap in Hm. destruct (h !! self) as [[| | | | m0 |] |] eqn:Hself;
    try discriminate. injection Hm as ->.
  unfold data_of, relative_data_of, read_markmap in Hd, Hrd.
  rewrite Hself in Hd, Hrd. simpl in Hd, Hrd. unfold read_dict in Hd, Hrd.
  destruct (h !! data m) as [[d0 | | | | |] |] eqn:Hdl; try discriminate.
  injection Hd as ->.
  destruct (h !! relative_data m) as [[rd0 | | | | |] |] eqn:Hrdl; try discriminate.
  injection Hrd as ->.
  destruct Hwf as (m' & d' & rd' & sp & Hself' & _ & _ & Hsp & _).
  rewrite Hself in Hself'. injection Hself' as <-.
  set (h2 := resize h tp size2).
  assert (Hself2 : h2 !! self = Some (HMarkMap m))
    by (eapply lookup_resize; eauto; done).
  assert (Hd2 : h2 !! data m = Some (HDict d))
    by (eapply lookup_resize; eauto; done).
  assert (Hrd2 : h2 !! relative_data m = Some (HDict rd))
    by (eapply lookup_resize; eauto; done).
  assert (Hsp2 : h2 !! special m = Some (HSet sp))
    by (eapply lookup_resize; eauto; done).
  assert (Htp2 : h2 !! tp = Some (HText size2))
    by (eapply lookup_resize_plane; eauto).
  assert (Hspecials : all_specials h2 self seq_data = all_specials h self seq_data).
  { unfold all_specials, special_of, read_markmap, read_set.
    rewrite Hself2, Hself. simpl. by rewrite Hsp2, Hsp. }
  destruct (prepare_copy h2 self seq_data tk text ctx) as
    (inst & h' & mi & C & Hrun & Hmi & Hcopy & _ & _ & Hdata).
  { exists m, d, rd, sp. rewrite Htp. repeat split; try done. by exists size2. }
  { by rewrite Hspecials. }
  exists inst, h'. split; [exact Hrun |].
  assert (HD : data_of h' inst = Some (relative_loop size2 rd d)).
  { rewrite Hdata. unfold data_of, size_of, relative_data_of, read_markmap.
    rewrite Hself2. simpl. rewrite Htp. simpl. unfold read_dict, read_size.
    rewrite Hd2, Hrd2, Htp2. reflexivity. }
  unfold read_markmap in Hmi.
  destruct (h' !! inst) as [[| | | | mi0 |] |] eqn:Hinst; try discriminate.
  injection Hmi as ->.
  unfold data_of, read_markmap in HD. rewrite Hinst in HD. simpl in HD.
  unfold read_dict in HD.
  destruct (h' !! data mi) as [[D | | | | |] |] eqn:HDl; try discriminate.
  injection HD as ->.
  split; [| split].
  - intros q Hq1 Hq2. eexists. split.
    + eapply get_rendering_copy; eauto.
    + pose proof (relative_loop_marks size2 rd d (CInt q.1, CInt q.2)) as Hmarks.
      unfold marks_at at 1 in Hmarks. unfold resolved_marks.
      destruct (od_get (relative_loop size2 rd d) (CInt q.1, CInt q.2)) as [c0 |];
        simpl in *; [exact Hmarks |].
      exact Hmarks.
  - intros mk Hmk. unfold resolved_marks. apply list_elem_of_In, in_flat_map.
    exists (idx, c). split.
    + apply list_elem_of_In. clear -Hidx.
      induction rd as [| [k v] rd IH]; simpl in Hidx; [done |].
      destruct (decide (idx = k)) as [-> | Hne].
      * injection Hidx as ->. by left.
      * right. by apply IH.
    + simpl. destruct (decide (concrete_key idx size2 = concrete_key idx size2));
        [by apply list_elem_of_In | done].
  - intros _ _ Hnone. unfold resolved_marks.
    clear -Hnone. induction rd as [| [i c'] rd IH]; simpl; [done |].
    destruct (decide (concrete_key i size2 = concrete_key idx size1)) as [E | _].
    + exfalso. eapply Hnone; [| exact E]. by left.
    + simpl. apply IH. intros i0 c0 Hin. eapply Hnone. by right.
Qed.

(** ** Special marks and ticks *)

Lemma special_loop_keeps tk len sp :
  forall d r C,
    special_loop tk len sp d = (r, C) ->
    forall k l, od_get d k = Some l ->
    exists l', od_get C k = Some (l ++ l').
Proof.
  induction sp as [| x sp IH]; intros d r C Hrun k l Hk; simpl in Hrun.
  - injection Hrun as _ <-. exists []. by rewrite app_nil_r.
  - destruct (index x.2) as [f |].
    + destruct (f tk len) as [idx | e].
      * destruct (decide (k = idx)) as [-> | Hne].
        -- destruct (IH _ _ _ Hrun idx (l ++ [x.2])) as [l' Hl'].
           { rewrite od_get_set_eq, Hk. reflexivity. }
           exists ([x.2] ++ l'). by rewrite app_assoc.
        -- apply (IH _ _ _ Hrun). by rewrite od_get_set_ne.
      * injection Hrun as _ <-. exists []. by rewrite app_nil_r.
    + injection Hrun as _ <-. exists []. by rewrite app_nil_r.
Qed.

Lemma special_loop_files tk len sp :
  forall d C x,
    special_loop tk len sp d = (Ok tt, C) ->
    x ∈ sp ->
    forall k, files_under tk len x.2 k -> concretized_at C x.2 k.
Proof.
  induction sp as [| y sp IH]; intros d C x Hrun Hin k (f & Hf & Hk);
    simpl in Hrun.
  - by apply elem_of_nil in Hin.
  - apply elem_of_cons in Hin as [-> | Hin].
    + rewrite Hf, Hk in Hrun.
      destruct (special_loop_keeps _ _ _ _ _ _ Hrun k
                  (default [] (od_get d k) ++ [y.2])) as [l' Hl'].
      { apply od_get_set_eq. }
      exists ((default [] (od_get d k) ++ [y.2]) ++ l'). split; [done |].
      apply elem_of_app. left. apply elem_of_app. right. by apply list_elem_of_singleton.
    + destruct (index y.2) as [g |]; [| done].
      destruct (g tk len) as [idx | e]; [| done].
      eapply IH; eauto. by exists f.
Qed.

Lemma special_loop_only tk len sp :
  forall d r C,
    special_loop tk len sp d = (r, C) ->
    (forall k l x, od_get d k = Some l -> x ∈ l -> files_under tk len x k) ->
    forall k l x, od_get C k = Some l -> x ∈ l -> files_under tk len x k.
Proof.
  induction sp as [| y sp IH]; intros d r C Hrun Hd; simpl in Hrun.
  - by injection Hrun as _ <-.
  - destruct (index y.2) as [f |] eqn:Hf; [| by injection Hrun as _ <-].
    destruct (f tk len) as [idx | e] eqn:Hidx; [| by injection Hrun as _ <-].
    apply (IH _ _ _ Hrun). intros k l x Hk Hx.
    rewrite od_get_set in Hk. destruct (decide (k = idx)) as [-> | Hne].
    + injection Hk as <-. apply elem_of_app in Hx as [Hx | Hx].
      * destruct (od_get d idx) as [l0 |] eqn:E; simpl in Hx.
        -- by eapply Hd.
        -- by apply elem_of_nil in Hx.
      * apply list_elem_of_singleton in Hx as ->. by exists f.
    + by eapply Hd.
Qed.

Lemma mod_succ_ne (t len : Z) : 1 < len -> t mod len ≠ (t + 1) mod len.
Proof.
  intros Hlen E.
  assert (H : ((t + 1) - t) mod len = 0).
  { rewrite Zminus_mod, <- E, Z.sub_diag. by apply Z.mod_0_l; lia. }
  replace (t + 1 - t) with 1 in H by lia.
  rewrite Z.mod_1_l in H by lia. lia.
Qed.

(** What [prepare] files a [tick % len] mark under. *)
Lemma prepare_tick_mod_len (h : list hobj) self seq_data text ctx ident mk tk :
  wf_markmap h self ->
  (ident, mk) ∈ all_specials h self seq_data ->
  index mk = Some tick_mod_len ->
  1 < Z.of_nat (length text) ->
  specials_return (all_specials h self seq_data) tk (Z.of_nat (length text)) ->
  exists inst h' C,
    MarkMap.prepare self seq_data tk text ctx h = (Ok inst, h')
    ∧ concrete_special_of h' inst = Some C
    ∧ forall k, concretized_at C mk k <-> k = SIdx (tk mod Z.of_nat (length text)).
Proof.
  intros Hwf Hin Hidx Hlen Hret.
  destruct (prepare_copy h self seq_data tk text ctx Hwf Hret) as
    (inst & h' & mi & C & Hrun & _ & _ & HC & Hconc & _).
  exists inst, h', C. split; [done |]. split; [done |].
  assert (Hfiles : files_under tk (Z.of_nat (length text)) mk
                     (SIdx (tk mod Z.of_nat (length text)))).
  { exists tick_mod_len. split; [done |]. unfold tick_mod_len.
    destruct (Z.eqb_spec (Z.of_nat (length text)) 0); [lia | done]. }
  intros k. split.
  - intros (l & Hl & Hmk).
    assert (Hempty : forall k l x, od_get ([] : list (sindex * list Mark)) k = Some l ->
                                   x ∈ l -> files_under tk (Z.of_nat (length text)) x k)
      by (intros ? ? ? H; discriminate H).
    destruct (special_loop_only _ _ _ _ _ _ HC Hempty k l mk Hl Hmk) as (f & Hf & Hk).
    rewrite Hidx in Hf. injection Hf as <-. unfold tick_mod_len in Hk.
    destruct (Z.eqb_spec (Z.of_nat (length text)) 0); [lia |]. by injection Hk.
  - intros ->. apply (special_loop_files _ _ _ _ _ (ident, mk) HC Hin). exact Hfiles.
Qed.

(** C6 (amended). A special mark whose index function is [tick % len], on a
    text of more than one character, is concretized by [prepare] at the
    position [tick % len] and nowhere else.  Two ticks give two different
    positions exactly when they differ modulo the length (two consecutive
    ticks always do); two ticks that are congruent modulo the length give
    the same position. *)
Theorem special_mark_position_by_tick (h : list hobj) (self : nat)
    (seq_data : SeqData) (text : list string) (ctx : option nat)
    (ident : nat) (mk : Mark) (t1 t2 : Z) :
  wf_markmap h self ->
  (ident, mk) ∈ all_specials h self seq_data ->
  index mk = Some tick_mod_len ->
  1 < Z.of_nat (length text) ->
  specials_return (all_specials h self seq_data) t1 (Z.of_nat (length text)) ->
  specials_return (all_specials h self seq_data) t2 (Z.of_nat (length text)) ->
  exists i1 h1 C1 i2 h2 C2,
    MarkMap.prepare self seq_data t1 text ctx h = (Ok i1, h1)
    ∧ concrete_special_of h1 i1 = Some C1
    ∧ MarkMap.prepare self seq_data t2 text ctx h = (Ok i2, h2)
    ∧ concrete_special_of h2 i2 = Some C2
    ∧ (forall k, concretized_at C1 mk k <-> k = SIdx (t1 mod Z.of_nat (length text)))
    ∧ (forall k, concretized_at C2 mk k <-> k = SIdx (t2 mod Z.of_nat (length text)))
    ∧ (t1 mod Z.of_nat (length text) ≠ t2 mod Z.of_nat (length text) ->
       forall k, ¬ (concretized_at C1 mk k ∧ concretized_at C2 mk k))
    ∧ (t2 = t1 + 1 ->
       forall k, ¬ (concretized_at C1 mk k ∧ concretized_at C2 mk k))
    ∧ (t1 mod Z.of_nat (length text) = t2 mod Z.of_nat (length text) ->
       forall k, concretized_at C1 mk k <-> concretized_at C2 mk k).
Proof.
  intros Hwf Hin Hidx Hlen Hret1 Hret2.
  destruct (prepare_tick_mod_len h self seq_data text ctx ident mk t1)
    as (i1 & h1 & C1 & Hrun1 & HC1 & Hat1); try done.
  destruct (prepare_tick_mod_len h self seq_data text ctx ident mk t2)
    as (i2 & h2 & C2 & Hrun2 & HC2 & Hat2); try done.
  exists i1, h1, C1, i2, h2, C2. repeat (split; [done |]).
  split; [| split].
  - intros Hne k [H1 H2]. apply Hat1 in H1. apply Hat2 in H2. congruence.
  - intros -> k [H1 H2]. apply Hat1 in H1. apply Hat2 in H2.
    apply (mod_succ_ne t1 (Z.of_nat (length text)) Hlen). congruence.
  - intros E k. rewrite Hat1, Hat2, E. done.
Qed.

Lemma demo_wf : wf_markmap demo_heap demo_map.
Proof.
  unfold wf_markmap. eexists _, _, _, _. repeat split; try reflexivity.
  simpl. eexists. reflexivity.
Defined.

Lemma demo_specials_return tk :
  specials_return (all_specials demo_heap demo_map (mkSeqData [] None)) tk 2.
Proof. repeat constructor. eexists _, _. split; reflexivity. Defined.

Lemma relative_marks_follow_plane_size_witness :
  exists inst h' found,
    MarkMap.prepare demo_map (mkSeqData [] None) 0 ["a"; "b"] None
      (resize demo_heap demo_plane (8, 5)) = (Ok inst, h')
    ∧ MarkMap.get inst (CInt 7, CInt 0) (Many []) h' = (Ok found, h')
    ∧ _force_iter found = [red_mark].
Proof.
  destruct (relative_marks_follow_plane_size demo_heap demo_map demo_plane
              (10, 5) (8, 5) (mkSeqData [] None) 0 ["a"; "b"] None
              (mkMarkMap 2 3 0 (mkSeqData [] None) 4 5 (Some 0%nat) false None None)
              [((CInt 9, CInt 0), One blue_mark)]
              [((CRel WIDTH (-1), CInt 0), One red_mark)]
              (CRel WIDTH (-1), CInt 0) (One red_mark))
    as (inst & h' & Hrun & Hget & _).
  - exact demo_wf.
  - reflexivity.
  - reflexivity.
  - reflexivity.
  - reflexivity.
  - reflexivity.
  - reflexivity.
  - exact (demo_specials_return 0).
  - destruct (Hget (7, 0)) as (found & Hfound & Hmarks); [simpl; lia | simpl; lia |].
    exists inst, h', found. repeat split; assumption.
Defined.

Lemma special_mark_position_by_tick_witness :
  exists i1 h1 C1 i2 h2 C2,
    MarkMap.prepare demo_map (mkSeqData [] None) 4 ["a"; "b"] None demo_heap
    = (Ok i1, h1)
    ∧ concrete_special_of h1 i1 = Some C1
    ∧ MarkMap.prepare demo_map (mkSeqData [] None) 5 ["a"; "b"] None demo_heap
      = (Ok i2, h2)
    ∧ concrete_special_of h2 i2 = Some C2
    ∧ forall k, ¬ (concretized_at C1 blink_mark k ∧ concretized_at C2 blink_mark k).
Proof.
  destruct (special_mark_position_by_tick demo_heap demo_map (mkSeqData [] None)
              ["a"; "b"] None 3 blink_mark 4 5)
    as (i1 & h1 & C1 & i2 & h2 & C2 & H1 & H2 & H3 & H4 & _ & _ & _ & Hnext & _).
  - exact demo_wf.
  - apply list_elem_of_singleton. reflexivity.
  - reflexivity.
  - simpl. lia.
  - exact (demo_specials_return 4).
  - exact (demo_specials_return 5).
  - exists i1, h1, C1, i2, h2, C2. repeat (split; [assumption |]).
    apply Hnext. reflexivity.
Defined.

(** C6, as stated, fails: ticks 0 and 2 are distinct, the text has more
    than one character, and [prepare] concretizes the [tick % len] mark at
    the same position, index 0, for both. *)
Lemma distinct_ticks_same_position :
  (0 : Z) ≠ 2
  ∧ 1 < Z.of_nat (length ["a"; "b"])
  ∧ exists i1 h1 i2 h2,
      MarkMap.prepare demo_map (mkSeqData [] None) 0 ["a"; "b"] None demo_heap
      = (Ok i1, h1)
      ∧ MarkMap.prepare demo_map (mkSeqData [] None) 2 ["a"; "b"] None demo_heap
        = (Ok i2, h2)
      ∧ concrete_special_of h1 i1 = Some [(SIdx 0, [blink_mark])]
      ∧ concrete_special_of h2 i2 = Some [(SIdx 0, [blink_mark])].
Proof.
  split; [lia |]. split; [simpl; lia |].
  eexists _, _, _, _. repeat split; reflexivity.
Qed.

(** ** Deletion and iteration *)

Lemma variants_of_stored_spelling k idx size :
  stored_spelling k ->
  concrete_key k size = concrete_key idx size ->
  k ∈ get_relative_variants idx size.
Proof.
  destruct k as [kx ky]. unfold stored_spelling, concrete_key, concrete_pos,
    get_relative_variants, far_x, far_y. simpl.
  set (px := concrete_x idx.1 size). set (py := concrete_y idx.2 size).
  intros [Hx Hy] E. injection E as Ex Ey.
  assert (Hkx : kx = CInt px ∨ kx = CRel WIDTH (0 - (size.1 - px))).
  { destruct kx as [n | | [] off]; try done.
    - left. unfold concrete_x in Ex. simpl in Ex.
      destruct (Z.ltb_spec n 0); [lia | congruence].
    - right. unfold concrete_x, evaluate in Ex. simpl in Ex. f_equal. lia. }
  assert (Hky : ky = CInt py ∨ ky = CRel HEIGHT (0 - (size.2 - py))).
  { destruct ky as [n | | [] off]; try done.
    - left. unfold concrete_y in Ey. simpl in Ey.
      destruct (Z.ltb_spec n 0); [lia | congruence].
    - right. unfold concrete_y, evaluate in Ey. simpl in Ey. f_equal. lia. }
  rewrite !elem_of_cons.
  destruct Hkx as [-> | ->], Hky as [-> | ->]; tauto.
Qed.

Lemma delitem_run (h : list hobj) self m tp size d rd idx :
  h !! self = Some (HMarkMap m) ->
  text_plane m = Some tp ->
  h !! tp = Some (HText size) ->
  h !! data m = Some (HDict d) ->
  h !! relative_data m = Some (HDict rd) ->
  data m ≠ relative_data m ->
  let p := concrete_pos idx size in
  let v0 : mkey := (CInt p.1, CInt p.2) in
  let v1 : mkey := (far_x p size, CInt p.2) in
  let v2 : mkey := (CInt p.1, far_y p size) in
  let v3 : mkey := (far_x p size, far_y p size) in
  let found :=
    slot_truthy d v0 || slot_truthy rd v0 || slot_truthy (od_del rd v0) v1
    || slot_truthy (od_del (od_del rd v0) v1) v2
    || slot_truthy (od_del (od_del (od_del rd v0) v1) v2) v3 in
  MarkMap.__delitem__ self idx h
  = (if found then Ok tt else Raise KeyError,
     <[relative_data m := HDict (od_del (od_del (od_del (od_del rd v0) v1) v2) v3)]>
       (<[data m := HDict (od_del d v0)]> h)).
Proof.
  intros Hself Htp Hsize Hd Hrd Hne p v0 v1 v2 v3 found.
  unfold MarkMap.__delitem__.
  run_with ltac:(apply load_markmap_eq; exact Hself). rewrite Htp.
  run_with ltac:(apply plane_size_eq; exact Hsize).
  unfold get_relative_variants. fold p v0 v1 v2 v3.
  assert (Hlt : (relative_data m < length h)%nat) by (by eapply lookup_lt_Some).
  assert (Hlt' : (data m < length h)%nat) by (by eapply lookup_lt_Some).
  erewrite mbind_eq with (a := found); [by destruct found |].
  cbn [MarkMap.del_variants]. cbn [decide]. 
  destruct (decide (0 = 0)%nat) as [_ |]; [| done].
  run_with ltac:(erewrite mbind_eq;
                 [| apply load_dict_eq; exact Hd];
                 erewrite mbind_eq; [| reflexivity]; reflexivity).
  run_with ltac:(apply load_dict_eq; rewrite list_lookup_insert_ne by done; exact Hrd).
  run_with ltac:(reflexivity).
  destruct (decide (1 = 0)%nat); [done |].
  run_with ltac:(reflexivity).
  run_with ltac:(apply load_dict_eq; apply list_lookup_insert_eq;
                 rewrite length_insert; exact Hlt).
  run_with ltac:(reflexivity). rewrite list_insert_insert_eq.
  destruct (decide (2 = 0)%nat); [done |].
  run_with ltac:(reflexivity).
  run_with ltac:(apply load_dict_eq; apply list_lookup_insert_eq;
                 rewrite length_insert; exact Hlt).
  run_with ltac:(reflexivity). rewrite list_insert_insert_eq.
  destruct (decide (3 = 0)%nat); [done |].
  run_with ltac:(reflexivity).
  run_with ltac:(apply load_dict_eq; apply list_lookup_insert_eq;
                 rewrite length_insert; exact Hlt).
  run_with ltac:(reflexivity). rewrite list_insert_insert_eq.
  unfold mret, found, slot_truthy. simpl. reflexivity.
Qed.

Lemma iter_run (h : list hobj) self m tp d rd :
  h !! self = Some (HMarkMap m) ->
  text_plane m = Some tp ->
  h !! data m = Some (HDict d) ->
  h !! relative_data m = Some (HDict rd) ->
  MarkMap.__iter__ self h = (Ok (od_keys d ++ od_keys rd), h)
  ∧ MarkMap.__len__ self h = (Ok (Z.of_nat (length d) + Z.of_nat (length rd)), h).
Proof.
  intros Hself Htp Hd Hrd. unfold MarkMap.__iter__, MarkMap.__len__. split.
  - run_with ltac:(apply load_markmap_eq; exact Hself).
    run_with ltac:(apply load_dict_eq; exact Hd).
    run_with ltac:(apply load_dict_eq; exact Hrd).
    rewrite Htp. destruct rd; [| reflexivity].
    unfold od_keys. simpl. by rewrite app_nil_r.
  - run_with ltac:(apply load_markmap_eq; exact Hself).
    run_with ltac:(apply load_dict_eq; exact Hd).
    run_with ltac:(apply load_dict_eq; exact Hrd).
    reflexivity.
Qed.

(** C8 (amended). On a map attached to a plane, deleting a coordinate
    (given with a vertical component other than [None]) removes the absolute
    entry of the cell and its three edge-relative spellings, hence every
    spelling [__setitem__] can have stored for that cell, and touches no
    other entry; it raises [KeyError] exactly when none of the four slots
    held a mark.  Iteration does not merge spellings: it yields every stored
    key, the absolute ones and then the relative ones, and [__len__] counts
    them all. *)
Theorem delete_removes_all_spellings (h : list hobj) (self tp : nat)
    (m : MarkMapObj) (size : Z * Z) (d rd : list (mkey * cell)) (idx : mkey) :
  h !! self = Some (HMarkMap m) ->
  text_plane m = Some tp ->
  h !! tp = Some (HText size) ->
  h !! data m = Some (HDict d) ->
  h !! relative_data m = Some (HDict rd) ->
  data m ≠ relative_data m ->
  NoDup (od_keys d) ->
  NoDup (od_keys rd) ->
  idx.2 ≠ CNone ->
  exists r h' d' rd',
    MarkMap.__delitem__ self idx h = (r, h')
    ∧ data_of h' self = Some d'
    ∧ relative_data_of h' self = Some rd'
    ∧ od_get d' (concrete_key idx size) = None
    ∧ (forall v, v ∈ get_relative_variants idx size -> od_get rd' v = None)
    ∧ (forall k, stored_spelling k ->
                 concrete_key k size = concrete_key idx size ->
                 od_get rd' k = None
                 ∧ (index_is_relative k = false -> od_get d' k = None))
    ∧ (forall k, k ≠ concrete_key idx size -> od_get d' k = od_get d k)
    ∧ (forall k, k ∉ get_relative_variants idx size -> od_get rd' k = od_get rd k)
    ∧ (r = Raise KeyError
       <-> slot_truthy d (concrete_key idx size) = false
           ∧ forall v, v ∈ get_relative_variants idx size -> slot_truthy rd v = false)
    ∧ (r = Ok tt ∨ r = Raise KeyError)
    ∧ MarkMap.__iter__ self h = (Ok (od_keys d ++ od_keys rd), h)
    ∧ MarkMap.__len__ self h
      = (Ok (Z.of_nat (length d) + Z.of_nat (length rd)), h).
Proof.
  intros Hself Htp Hsize Hd Hrd Hne Hnd Hnrd _.
  pose proof (delitem_run h self m tp size d rd idx Hself Htp Hsize Hd Hrd Hne)
    as Hrun. cbv zeta in Hrun.
  unfold concrete_key, get_relative_variants.
  set (p := concrete_pos idx size) in *.
  set (v0 := (CInt p.1, CInt p.2) : mkey) in *.
  set (v1 := (far_x p size, CInt p.2) : mkey) in *.
  set (v2 := (CInt p.1, far_y p size) : mkey) in *.
  set (v3 := (far_x p size, far_y p size) : mkey) in *.
  assert (H01 : v0 ≠ v1) by (unfold v0, v1, far_x; congruence).
  assert (H02 : v0 ≠ v2) by (unfold v0, v2, far_y; congruence).
  assert (H03 : v0 ≠ v3) by (unfold v0, v3, far_x; congruence).
  assert (H12 : v1 ≠ v2) by (unfold v1, v2, far_x; congruence).
  assert (H13 : v1 ≠ v3) by (unfold v1, v3, far_y; congruence).
  assert (H23 : v2 ≠ v3) by (unfold v2, v3, far_x; congruence).
  set (rd' := od_del (od_del (od_del (od_del rd v0) v1) v2) v3) in *.
  assert (Hlt : (relative_data m < length h)%nat) by (by eapply lookup_lt_Some).
  assert (Hlt' : (data m < length h)%nat) by (by eapply lookup_lt_Some).
  assert (Hgone : forall v, v ∈ [v0; v1; v2; v3] -> od_get rd' v = None).
  { intros v Hv. unfold rd'. rewrite !elem_of_cons in Hv.
    destruct Hv as [-> | [-> | [-> | [-> | Hv]]]].
    - rewrite !od_get_del_ne by done. by apply od_get_del_eq.
    - rewrite !od_get_del_ne by done. apply od_get_del_eq. by apply od_del_NoDup.
    - rewrite !od_get_del_ne by done. apply od_get_del_eq.
      by repeat apply od_del_NoDup.
    - apply od_get_del_eq. by repeat apply od_del_NoDup.
    - by apply elem_of_nil in Hv. }
  assert (Hkeep : forall k, k ∉ [v0; v1; v2; v3] -> od_get rd' k = od_get rd k).
  { intros k Hk. rewrite !not_elem_of_cons in Hk.
    destruct Hk as (? & ? & ? & ? & _). unfold rd'.
    by rewrite !od_get_del_ne by done. }
  assert (Htruthy : forall v, v ∈ [v0; v1; v2; v3] ->
                              slot_truthy rd' v = false) by
    (intros v Hv; unfold slot_truthy; by rewrite (Hgone v Hv)).
  eexists _, _, (od_del d v0), rd'. split; [exact Hrun |].
  split.
  { unfold data_of, read_markmap, read_dict.
    rewrite !list_lookup_insert_ne
      by (intros E; rewrite E, ?Hself in *; congruence).
    rewrite Hself. simpl. rewrite list_lookup_insert_ne by done.
    by rewrite list_lookup_insert_eq. }
  split.
  { unfold relative_data_of, read_markmap, read_dict.
    rewrite !list_lookup_insert_ne
      by (intros E; rewrite E, ?Hself in *; congruence).
    rewrite Hself. simpl. rewrite list_lookup_insert_eq; [done |].
    by rewrite length_insert. }
  split; [by apply od_get_del_eq |].
  split; [exact Hgone |].
  split.
  { intros k Hk E.
    pose proof (variants_of_stored_spelling k idx size Hk E) as Hin.
    unfold get_relative_variants in Hin. fold p v0 v1 v2 v3 in Hin.
    split; [by apply Hgone |].
    intros Habs. rewrite !elem_of_cons in Hin.
    destruct Hin as [-> | [-> | [-> | [-> | Hin]]]]; try discriminate Habs.
    - by apply od_get_del_eq.
    - unfold index_is_relative, v2, far_y in Habs. simpl in Habs.
      by rewrite orb_true_r in Habs.
    - by apply elem_of_nil in Hin. }
  split; [intros k Hk; by apply od_get_del_ne |].
  split; [exact Hkeep |].
  split.
  { assert (Hs1 : slot_truthy (od_del rd v0) v1 = slot_truthy rd v1)
      by (unfold slot_truthy; by rewrite od_get_del_ne).
    assert (Hs2 : slot_truthy (od_del (od_del rd v0) v1) v2 = slot_truthy rd v2)
      by (unfold slot_truthy; by rewrite !od_get_del_ne).
    assert (Hs3 : slot_truthy (od_del (od_del (od_del rd v0) v1) v2) v3
                  = slot_truthy rd v3)
      by (unfold slot_truthy; by rewrite !od_get_del_ne).
    rewrite Hs1, Hs2, Hs3. split.
    - intros Hr.
      match type of Hr with
      | (if ?b then _ else _) = _ => destruct b eqn:Hb; [discriminate Hr |]
      end.
      rewrite !orb_false_iff in Hb. destruct Hb as [[[[Hb0 Hr0] Hr1] Hr2] Hr3].
      split; [done |]. intros v Hv. rewrite !elem_of_cons in Hv.
      destruct Hv as [-> | [-> | [-> | [-> | Hv]]]];
        [done | done | done | done | by apply elem_of_nil in Hv].
    - intros [H0 Hall].
      rewrite H0, (Hall v0), (Hall v1), (Hall v2), (Hall v3);
        [done | | | |]; rewrite !elem_of_cons; tauto. }
  split.
  { match goal with |- context [if ?b then _ else _] => destruct b end; tauto. }
  by eapply iter_run.
Qed.

(** C8, as stated, fails: the demo map holds one cell under two spellings,
    from the near edge and from the far edge, and iteration yields both. *)
Lemma iteration_yields_each_spelling :
  MarkMap.__iter__ demo_map demo_heap
  = (Ok [(CInt 9, CInt 0); (CRel WIDTH (-1), CInt 0)], demo_heap)
  ∧ ((CInt 9, CInt 0) : mkey) ≠ (CRel WIDTH (-1), CInt 0)
  ∧ concrete_key (CInt 9, CInt 0) (10, 5)
    = concrete_key (CRel WIDTH (-1), CInt 0) (10, 5)
  ∧ read_size demo_heap demo_plane = Some (10, 5)
  ∧ MarkMap.__len__ demo_map demo_heap = (Ok 2, demo_heap).
Proof. repeat split; try reflexivity. discriminate. Qed.

Lemma delete_removes_all_spellings_witness :
  exists h',
    MarkMap.__delitem__ demo_map (CInt 9, CInt 0) demo_heap = (Ok tt, h')
    ∧ data_of h' demo_map = Some []
    ∧ relative_data_of h' demo_map = Some [].
Proof.
  destruct (delete_removes_all_spellings demo_heap demo_map demo_plane
              (mkMarkMap 2 3 0 (mkSeqData [] None) 4 5 (Some 0%nat) false None None)
              (10, 5)
              [((CInt 9, CInt 0), One blue_mark)]
              [((CRel WIDTH (-1), CInt 0), One red_mark)]
              (CInt 9, CInt 0))
    as (r & h' & d' & rd' & Hrun & Hd & Hrd & _).
  - reflexivity.
  - reflexivity.
  - reflexivity.
  - reflexivity.
  - reflexivity.
  - simpl. lia.
  - apply NoDup_singleton.
  - apply NoDup_singleton.
  - discriminate.
  - exists h'. vm_compute in Hrun. injection Hrun as <- <-.
    split; [reflexivity |]. split; reflexivity.
Defined.

(** ** The tokenizer *)

Lemma tokenizer_update_init (a b : string) :
  MLTokenizer.update (MLTokenizer.__init__ a) b = MLTokenizer.__init__ (a +:+ b).
Proof.
  unfold MLTokenizer.__init__, MLTokenizer.update. simpl. reflexivity.
Qed.

(** C9. Feeding a tokenizer [a] and then [b] and parsing gives what parsing
    a tokenizer fed [a + b] gives: the same outcome, the same parsed text and
    the same mark sequence.  [parse] reads nothing but the accumulated raw
    text: two tokenizers with the same raw text parse alike, whatever an
    earlier [parse] left in them. *)
Theorem incremental_feed_is_concatenation
    (Color : tokval -> result pyval) (Effects_members : string -> option Z)
    (special_startswith_paren : special_value -> result bool)
    (special_split_bar : special_value -> result (list chars)) :
  let parse := MLTokenizer.parse Color Effects_members special_startswith_paren
                 special_split_bar in
  (forall a b : string,
     parse (MLTokenizer.update (MLTokenizer.__init__ a) b)
     = parse (MLTokenizer.__init__ (a +:+ b)))
  ∧ (forall a b : string,
       MLTokenizer.raw_text (MLTokenizer.update (MLTokenizer.__init__ a) b)
       = a +:+ b)
  ∧ (forall t1 t2 : MLTokenizer.t,
       MLTokenizer.raw_text t1 = MLTokenizer.raw_text t2 -> parse t1 = parse t2)
  ∧ (forall t : MLTokenizer.t,
       exists text marks,
         MLTokenizer.parsed_text (parse t).2 = Some text
         ∧ MLTokenizer.mark_sequence (parse t).2 = Some marks
         ∧ MLTokenizer.raw_text (parse t).2 = MLTokenizer.raw_text t).
Proof.
  intros parse. split; [| split; [| split]].
  - intros a b. by rewrite tokenizer_update_init.
  - intros a b. reflexivity.
  - intros t1 t2 E. unfold parse, MLTokenizer.parse. rewrite E.
    reflexivity.
  - intros t. unfold parse, MLTokenizer.parse.
    destruct (MLTokenizer.sub _ _ _ _ _) as [text raw_tokens].
    destruct (MLTokenizer._tokens_to_marks _ _ _ _ _) as [r marks].
    simpl. eauto.
Qed.

(** C9 at one markup fed in two pieces, and at two tokenizers of the same
    raw text of which one has parsed before. *)
Lemma incremental_feed_is_concatenation_witness :
  let parse := MLTokenizer.parse Color_model Effects_model (fun _ => Ok false)
                 (fun _ => Raise AttributeError) in
  MLTokenizer.raw_text (parse (MLTokenizer.__init__ "[color:red]ab")).2
  = MLTokenizer.raw_text (MLTokenizer.__init__ "[color:red]ab")
  ∧ parse (parse (MLTokenizer.__init__ "[color:red]ab")).2
    = parse (MLTokenizer.__init__ "[color:red]ab")
  ∧ parse (MLTokenizer.update (MLTokenizer.__init__ "[color:r") "ed]ab")
    = parse (MLTokenizer.__init__ "[color:red]ab").
Proof.
  intros parse.
  pose (C9 := incremental_feed_is_concatenation Color_model Effects_model
                (fun _ => Ok false) (fun _ => Raise AttributeError)).
  assert (H : MLTokenizer.raw_text (parse (MLTokenizer.__init__ "[color:red]ab")).2
              = MLTokenizer.raw_text (MLTokenizer.__init__ "[color:red]ab"))
    by (vm_compute; reflexivity).
  split; [exact H |].
  split.
  - exact (proj1 (proj2 (proj2 C9)) _ _ H).
  - exact (proj1 C9 "[color:r" "ed]ab").
Defined.

(** ** Attribute stacks *)

Section StackFacts.
Import StyledSequence.

Lemma remove_first_origin_none o l :
Forall (fun e : pyval * origin => e.2 ≠ o) l -> remove_first_origin o l = l.
Proof.
induction 1 as [| x l Hx _ IH]; simpl; [done |].
destruct (decide (x.2 = o)); [done | by rewrite IH].
Qed.

Lemma remove_first_origin_app o l1 v l2 :
Forall (fun e : pyval * origin => e.2 ≠ o) l1 ->
remove_first_origin o (l1 ++ (v, o) :: l2) = l1 ++ l2.
Proof.
induction 1 as [| x l1 Hx _ IH]; simpl.
- destruct (decide (o = o)); done.
- destruct (decide (x.2 = o)); [done | by rewrite IH].
Qed.

(** The entry that goes is the one nearest to the top among those of the
  mark's origin. *)
Lemma pop_origin_nearest o pre v post :
Forall (fun e : pyval * origin => e.2 ≠ o) post ->
pop_origin o (pre ++ (v, o) :: post) = pre ++ post.
Proof.
intros Hpost. unfold pop_origin.
rewrite reverse_app, reverse_cons, <- app_assoc. simpl.
rewrite remove_first_origin_app by (by apply Forall_reverse).
by rewrite reverse_app, !reverse_involutive.
Qed.

Lemma pop_origin_none o stack :
Forall (fun e : pyval * origin => e.2 ≠ o) stack -> pop_origin o stack = stack.
Proof.
intros H. unfold pop_origin.
rewrite remove_first_origin_none by (by apply Forall_reverse).
apply reverse_involutive.
Qed.

Lemma load_cm_eq s cm : context_map s = Some cm -> load_cm s = (Ok cm, s).
Proof. intros H. unfold load_cm. by rewrite H. Qed.

Lemma pop_one_run o changed key s cm :
context_map s = Some cm ->
let key' := default key (seq_attrs key) in
let stack := default [] (cm !! key') in
pop_one o changed key s
= (Ok (match stack with [] => changed | _ => changed ++ [key'] end),
   set_context_map (Some (<[key' := pop_origin o stack]> cm)) s).
Proof.
intros Hcm key' stack. unfold pop_one. fold key'.
run_with ltac:(apply load_cm_eq; exact Hcm). fold stack.
run_with ltac:(reflexivity).
destruct stack as [| e stack0].
- unfold mret. destruct s; reflexivity.
- run_with ltac:(reflexivity). unfold mret. destruct s; reflexivity.
Qed.

Lemma write_back_run attr s cm :
context_map s = Some cm ->
write_back attr s
= (Ok tt,
   match reverse (default [] (cm !! attr)) with
   | top :: _ => set_context (Context.setattr (context s) attr top.1) s
   | [] => s
   end).
Proof.
intros Hcm. unfold write_back.
run_with ltac:(apply load_cm_eq; exact Hcm).
destruct (reverse (default [] (cm !! attr))); reflexivity.
Qed.

Lemma context_push_pop_run E s cm key mark_origin index :
context_map s = Some cm ->
let key' := default key (seq_attrs key) in
let stack := default [] (cm !! key') in
let stack' := pop_origin mark_origin stack in
_context_push E None (Some [key]) mark_origin index s
= (Ok tt,
   set_context (after_pop (context s) key' stack stack')
     (set_context_map (Some (<[key' := stack']> cm)) s)).
Proof.
intros Hcm key' stack stack'. unfold _context_push.
run_with ltac:(apply load_cm_eq; exact Hcm).
change (default [] (Some [key])) with [key].
change (default [] (@None (list (string * pyval)))) with (@nil (string * pyval)).
cbn [mfold].
run_with ltac:(erewrite mbind_eq; [| apply pop_one_run; exact Hcm]; reflexivity).
fold key' stack stack'. cbn [mfold]. run_with ltac:(reflexivity).
unfold after_pop. destruct stack as [| e stack0] eqn:Hstack.
- cbn [app mfor]. unfold mret. destruct s; reflexivity.
- cbn [app mfor].
  run_with ltac:(apply (write_back_run _ _ (<[key' := stack']> cm)); reflexivity).
  rewrite lookup_insert_eq. change (default [] (Some stack')) with stack'.
  unfold mret. destruct (reverse stack'); destruct s; reflexivity.
Qed.
End StackFacts.

(** C1 (amended). A Mark that pops an attribute removes, from the private
    stack of that attribute, the entry nearest to the top whose origin is
    the origin of the Mark itself (the plane or the sequence, as [get_full]
    tagged it), whether or not that entry is the top; a stack without such
    an entry stays as it is.  When the stack had entries and still has one,
    the value of its new top is written into the live Context; when nothing
    is left on the stack, the Context keeps the value it had.  Rendering
    "[color:blue] X [background:red] Y [/color] Z [/background]" raises
    nothing, and the colour is back to the default from the first character
    after [/color] on, while the background stays red. *)
Theorem pop_by_origin_and_write_back :
  (forall (E : StyledSequence.env) (s : StyledSequence.t)
          (cm : gmap string (list (pyval * origin))) (key : string)
          (mark_origin : origin) (index : Z),
     StyledSequence.context_map s = Some cm ->
     let key' := default key (StyledSequence.seq_attrs key) in
     let stack := default [] (cm !! key') in
     let stack' := StyledSequence.pop_origin mark_origin stack in
     exists s',
       StyledSequence._context_push E None (Some [key]) mark_origin index s
       = (Ok tt, s')
       ∧ StyledSequence.context_map s' = Some (<[key' := stack']> cm)
       ∧ (forall pre v post,
            stack = pre ++ (v, mark_origin) :: post ->
            Forall (fun e : pyval * origin => e.2 ≠ mark_origin) post ->
            stack' = pre ++ post)
       ∧ (Forall (fun e : pyval * origin => e.2 ≠ mark_origin) stack ->
          stack' = stack)
       ∧ (forall below top,
            stack ≠ [] -> stack' = below ++ [top] ->
            Context.getattr (StyledSequence.context s') key' = Ok top.1)
       ∧ (stack' = [] ->
          StyledSequence.context s' = StyledSequence.context s)
       ∧ (forall other, other ≠ key' ->
            Context.getattr (StyledSequence.context s') other
            = Context.getattr (StyledSequence.context s) other)
       ∧ StyledSequence.current_position s' = StyledSequence.current_position s)
  ∧ (exists r',
       iterate_markup "[color:blue] X [background:red] Y [/color] Z [/background]"
       = Ok ([ (" ", Ok (VColor "blue"), Ok (VSpecial DEFAULT_BG), Raise AttributeError);
               ("X", Ok (VColor "blue"), Ok (VSpecial DEFAULT_BG), Raise AttributeError);
               (" ", Ok (VColor "blue"), Ok (VSpecial DEFAULT_BG), Raise AttributeError);
               (" ", Ok (VColor "blue"), Ok (VColor "red"), Raise AttributeError);
               ("Y", Ok (VColor "blue"), Ok (VColor "red"), Raise AttributeError);
               (" ", Ok (VColor "blue"), Ok (VColor "red"), Raise AttributeError);
               (" ", Ok (VSpecial DEFAULT_FG), Ok (VColor "red"), Raise AttributeError);
               ("Z", Ok (VSpecial DEFAULT_FG), Ok (VColor "red"), Raise AttributeError);
               (" ", Ok (VSpecial DEFAULT_FG), Ok (VColor "red"), Raise AttributeError) ],
             r')).
Proof.
  split.
  - intros E s cm key mark_origin index Hcm key' stack stack'.
    eexists. split; [by apply context_push_pop_run |].
    fold key' stack stack'.
    split; [by destruct s |].
    split; [intros pre v post -> Hpost; by apply pop_origin_nearest |].
    split; [apply pop_origin_none |].
    split.
    { intros below top Hne Hst. unfold after_pop.
      rewrite Hst, reverse_app. simpl.
      destruct stack; [done |].
      destruct s; simpl. unfold Context.getattr, Context.setattr. simpl.
      by rewrite lookup_insert_eq. }
    split.
    { intros Hst. unfold after_pop. rewrite Hst. simpl.
      by destruct stack, s. }
    split; [| by destruct s].
    intros other Hother. unfold after_pop.
    destruct stack as [| e st]; [by destruct s |].
    destruct (reverse stack') as [| top rest]; [by destruct s |].
    destruct s; simpl. unfold Context.getattr, Context.setattr. simpl.
    by rewrite lookup_insert_ne.
  - eexists. vm_compute. reflexivity.
Qed.

Lemma pop_by_origin_and_write_back_witness :
  exists s',
    StyledSequence._context_push no_env None (Some ["color"]) Sequence 1 two_origins
    = (Ok tt, s')
    ∧ StyledSequence.context_map s'
      = Some (<["color" := [(VSpecial DEFAULT_FG, Original); (VColor "red", Plane)]]>
                {[ "color" := [(VSpecial DEFAULT_FG, Original);
                               (VColor "blue", Sequence);
                               (VColor "red", Plane)] ]})
    ∧ Context.getattr (StyledSequence.context s') "color" = Ok (VColor "red").
Proof.
  destruct pop_by_origin_and_write_back as [H _].
  destruct (H no_env two_origins
              {[ "color" := [(VSpecial DEFAULT_FG, Original);
                             (VColor "blue", Sequence);
                             (VColor "red", Plane)] ]}
              "color" Sequence 1)
    as (s' & Hrun & Hcm & _ & _ & Htop & _).
  - reflexivity.
  - exists s'. split; [exact Hrun |]. split; [exact Hcm |].
    apply (Htop [(VSpecial DEFAULT_FG, Original)] (VColor "red", Plane)).
    + discriminate.
    + reflexivity.
Defined.

(** C1, as stated, fails where it has the default written back when a
    stack becomes empty: the attribute [foreground] has no entry of the
    parent context under it, its only entry is popped by [/foreground], and
    the live Context still holds red for the character after the closing
    tag; neither the owner's context nor the defaults of [Context] have a
    value for [foreground]. *)
Lemma emptied_stack_writes_nothing_back :
  exists r',
    iterate_markup "[foreground:red]a[/foreground]b"
    = Ok ([ ("a", Ok (VSpecial DEFAULT_FG), Ok (VSpecial DEFAULT_BG), Ok (VColor "red"));
            ("b", Ok (VSpecial DEFAULT_FG), Ok (VSpecial DEFAULT_BG), Ok (VColor "red")) ],
          r')
    ∧ (cm ← StyledSequence.context_map (StyledSequence.r_self r'); cm !! "foreground")
      = Some []
    ∧ Context.items (Text.owner_context (StyledSequence.r_text r')) !! "foreground"
      = None
    ∧ Context.defaults !! "foreground" = None.
Proof.
  eexists. split; [vm_compute; reflexivity |].
  split; [vm_compute; reflexivity |]. split; vm_compute; reflexivity.
Qed.

(** ** The depth of calls [_process_to] needs *)

Section DepthFacts.
Import StyledSequence.

Lemma process_to_sequential E index s depth :
sequential s index ->
_process_to (S depth) E index s
= match _last_index_processed s with
  | None => mbind (modify (set_position (starting_point s)))
              (fun _ => process_marks E index) s
  | Some _ => process_marks E index s
  end.
Proof.
intros [[Hlast ->] | Hlast]; cbn [_process_to]; unfold mbind at 1, mget at 1;
  rewrite Hlast.
- reflexivity.
- destruct (Z.eqb_spec index (index - 1 + 1)); [reflexivity | lia].
Qed.

Lemma process_marks_last E index s c s' :
process_marks E index s = (Ok c, s') -> _last_index_processed s' = Some index.
Proof.
unfold process_marks, mbind, mget, mlift, modify, mret.
destruct (marks s) as [l |]; [| discriminate].
destruct ((MarkMap.get_full l index (current_position s) (e_heap E)).1)
  as [found | e]; [| discriminate].
destruct (mfor found (apply_mark E index) s) as [[[] | e] s1]; [| discriminate].
intros [= _ <-]. by destruct s1.
Qed.

Lemma process_to_sequential_last E index s depth c s' :
sequential s index ->
_process_to (S depth) E index s = (Ok c, s') ->
_last_index_processed s' = Some index.
Proof.
intros Hseq. rewrite process_to_sequential by done.
destruct (_last_index_processed s).
- apply process_marks_last.
- unfold mbind at 1, modify at 1. apply process_marks_last.
Qed.

Lemma replay_loop_depth E d1 d2 n :
forall k s,
  sequential s (Z.of_nat k) ->
  mfor (Z.of_nat <$> seq k n)
       (fun i => mbind (_process_to (S d1) E i) (fun _ => mret tt)) s
  = mfor (Z.of_nat <$> seq k n)
         (fun i => mbind (_process_to (S d2) E i) (fun _ => mret tt)) s.
Proof.
induction n as [| n IH]; intros k s Hseq; [reflexivity |].
cbn [seq fmap list_fmap mfor].
unfold mbind at 1 2 4 5.
rewrite (process_to_sequential E _ s d1), <- (process_to_sequential E _ s d2)
  by done.
destruct (_process_to (S d2) E (Z.of_nat k) s) as [[c | e] s'] eqn:Hstep;
  [| reflexivity].
unfold mret at 1 3. apply IH. right.
rewrite (process_to_sequential_last _ _ _ _ _ _ Hseq Hstep). f_equal. lia.
Qed.

Lemma mbind_ext {S A B} (c : M S A) (k1 k2 : A -> M S B) s :
(forall a s', k1 a s' = k2 a s') -> mbind c k1 s = mbind c k2 s.
Proof. intros H. unfold mbind. destruct (c s) as [[a | e] s']; [apply H | done]. Qed.

Lemma mbind_cong {S A B} (c1 c2 : M S A) (k : A -> M S B) s :
c1 s = c2 s -> mbind c1 k s = mbind c2 k s.
Proof. intros H. unfold mbind. by rewrite H. Qed.

Lemma mbind_modify {A} (f : t -> t) (k : unit -> M t A) s :
mbind (modify f) k s = k tt (f s).
Proof. reflexivity. Qed.

Lemma reprocess_depth E d1 d2 index s :
reprocess_with (_process_to (S d1) E) index s
= reprocess_with (_process_to (S d2) E) index s.
Proof.
unfold reprocess_with.
apply mbind_ext; intros [] s1.
apply mbind_ext; intros s2 s3.
apply mbind_ext; intros [] s4.
apply mbind_ext; intros [] s5.
rewrite !mbind_modify. cbv beta.
apply mbind_cong. unfold py_range.
apply (replay_loop_depth E d1 d2 (Z.to_nat (index + 1)) 0 (set_last None s5)).
left. by destruct s5.
Qed.

Lemma process_to_unfold depth E index :
_process_to (S depth) E index
= mbind mget (fun s =>
    match _last_index_processed s with
    | None =>
        if index =? 0 then
          mbind (modify (set_position (starting_point s)))
            (fun _ => process_marks E index)
        else reprocess_with (_process_to depth E) index
    | Some last =>
        if negb (index =? last + 1)
        then reprocess_with (_process_to depth E) index
        else process_marks E index
    end).
Proof. reflexivity. Qed.

(** Two levels are all [_process_to] ever uses: whatever depth is
  available beyond that, the outcome and the state are the same. *)
Lemma process_to_depth E depth index s :
_process_to (S (S depth)) E index s = _process_to 2 E index s.
Proof.
rewrite (process_to_unfold (S depth)), (process_to_unfold 1).
apply mbind_ext. intros s0 s1.
destruct (_last_index_processed s0) as [last |].
- destruct (negb (index =? last + 1)); [apply reprocess_depth | reflexivity].
- destruct (index =? 0); [reflexivity | apply reprocess_depth].
Qed.
End DepthFacts.

(** ** [_process_to] called twice *)

(** C3 (the code departs from it).  Two runs of the code in which a second
    [_process_to(i)] right after the first leaves another state.  In the
    first, the iteration of "ab" is suspended after its first character:
    [_process_to(1)] continues from the cursor the iteration advanced and
    leaves it at (1, 0); the same call again starts over from the starting
    point, applies marks only, and leaves it at (0, 0).  In the second, a
    fresh sequence has at offset 0 a pop and two pushes of a transformer:
    the first [_process_to(0)] leaves two transformers in the live context,
    the second, replaying over the stacks the first one left, leaves
    three. *)
Theorem process_to_twice_differs :
  (exists c1 s1 c2 s2,
     paused_after_first.1 = Ok tt
     ∧ StyledSequence._process_to demo_depth (env_of paused_after_first.2) 1
         (StyledSequence.r_self paused_after_first.2) = (Ok c1, s1)
     ∧ StyledSequence._process_to demo_depth (env_of paused_after_first.2) 1 s1
       = (Ok c2, s2)
     ∧ StyledSequence.current_position s1 = (1, 0)
     ∧ StyledSequence.current_position s2 = (0, 0))
  ∧ (exists c1 s1 c2 s2,
       transformers_entered.1 = Ok tt
       ∧ StyledSequence._process_to demo_depth (env_of transformers_entered.2) 0
           (StyledSequence.r_self transformers_entered.2) = (Ok c1, s1)
       ∧ StyledSequence._process_to demo_depth (env_of transformers_entered.2) 0 s1
         = (Ok c2, s2)
       ∧ names_in s1 (Context.getattr c1 "pretransformers") = ["up"; "low"]
       ∧ names_in s2 (Context.getattr c2 "pretransformers") = ["up"; "up"; "low"]).
Proof.
  split.
  - eexists _, _, _, _. split; [vm_compute; reflexivity |].
    split; [vm_compute; reflexivity |].
    split; [vm_compute; reflexivity |].
    split; vm_compute; reflexivity.
  - eexists _, _, _, _. split; [vm_compute; reflexivity |].
    split; [vm_compute; reflexivity |].
    split; [vm_compute; reflexivity |].
    split; vm_compute; reflexivity.
Qed.

(** ** The writings a plane retains *)

Section Preservation.
Context {S X : Type} (proj : S -> X).


Lemma preserves_mbind {A B} (c : M S A) (k : A -> M S B) :
  preserves proj c -> (forall a, preserves proj (k a)) ->
  preserves proj (mbind c k).
Proof.
  intros Hc Hk s. unfold mbind. specialize (Hc s).
  destruct (c s) as [[a | e] s']; simpl in *; [| done].
  by rewrite Hk.
Qed.

Lemma preserves_mfor {A} (l : list A) (body : A -> M S unit) :
  (forall a, preserves proj (body a)) -> preserves proj (mfor l body).
Proof.
  intros Hbody. induction l as [| a l IH]; [done |].
  apply preserves_mbind; [apply Hbody | intros _; apply IH].
Qed.


End Preservation.

Section TextRetention.
Variable EMPTY : string.





End TextRetention.

Section RenderRetention.
Import StyledSequence.
Variable EMPTY : string.











End RenderRetention.

Section Writings.
Import TextRender.
Variable EMPTY : string.
Variable depth : nat.




End Writings.




